(** * Terminal chatbot management command: lifecycle and failure containment

    A shallow embedding of [Chat_app/management/commands/chat_app_terminal.py]:
    the Django command [Command] with its helpers [_build_chatbot],
    [_train_if_needed], [_chat_loop] and its entry point [handle].

    The ChatterBot engine (the [ChatBot] constructor, the corpus trainer and
    [get_response]) is an opaque collaborator: it is a parameter of the
    development.  Exceptions are explicit results, the console and the calls
    made to the engine are recorded in a trace, and standard input is a finite
    script of events after which [input] raises [EOFError]. *)

From Stdlib Require Import String Ascii List Arith Lia QArith.
From stdpp Require Import base decidable option list strings gmap.
From Equations Require Import Equations.

Local Open Scope string_scope.
Local Open Scope list_scope.

(** ** Python [str] operations used by the command

    A [str] is modelled as a [string] whose characters are the code points
    below 256. *)

Module PyStr.

(** [str.isspace] on one character: the code points below 256 that Python
    treats as whitespace are 9-13, 28-32, 133 and 160. *)
Definition isspace (c : ascii) : bool :=
  let n := nat_of_ascii c in
  (((9 <=? n) && (n <=? 13)) || ((28 <=? n) && (n <=? 32))
   || (n =? 133) || (n =? 160))%nat.

(** [str.lower] on one character: [A-Z] and the upper-case letters
    192-222 (but the multiplication sign 215) move 32 up. *)
Definition lower_char (c : ascii) : ascii :=
  let n := nat_of_ascii c in
  if (((65 <=? n) && (n <=? 90))
      || ((192 <=? n) && (n <=? 222) && negb (n =? 215)))%nat
  then ascii_of_nat (n + 32) else c.

Fixpoint lower (s : string) : string :=
  match s with
  | EmptyString => EmptyString
  | String c r => String (lower_char c) (lower r)
  end.

Fixpoint lstrip (s : string) : string :=
  match s with
  | EmptyString => EmptyString
  | String c r => if isspace c then lstrip r else s
  end.

Fixpoint rstrip (s : string) : string :=
  match s with
  | EmptyString => EmptyString
  | String c r =>
      match rstrip r with
      | EmptyString => if isspace c then EmptyString else String c EmptyString
      | r' => String c r'
      end
  end.

(** [s.strip()] with no argument. *)
Definition strip (s : string) : string := rstrip (lstrip s).

(** Truth value of a [str]: [not s] holds exactly for the empty one. *)
Definition truthy (s : string) : bool :=
  match s with EmptyString => false | String _ _ => true end.

(** Every character of [s] is whitespace (so also the empty string). *)
Fixpoint all_space (s : string) : bool :=
  match s with
  | EmptyString => true
  | String c r => isspace c && all_space r
  end.

Definition first_char (s : string) : option ascii :=
  match s with EmptyString => None | String c _ => Some c end.

Fixpoint last_char (s : string) : option ascii :=
  match s with
  | EmptyString => None
  | String c EmptyString => Some c
  | String _ r => last_char r
  end.

(** [s] neither starts nor ends with a whitespace character. *)
Definition trimmed (s : string) : Prop :=
  (forall c, first_char s = Some c -> isspace c = false) /\
  (forall c, last_char s = Some c -> isspace c = false).

End PyStr.
Import PyStr.


(** ** Exceptions

    An exception is the class it is an instance of and the text [str(exc)]
    that an f-string shows for it.  [Derived n] is any other class below
    [Exception] (and not below [EOFError]); [DerivedBase n] is any other class
    directly below [BaseException]. *)

Inductive pyclass :=
| BaseException
| Exception
| EOFError
| KeyboardInterrupt
| SystemExit
| GeneratorExit
| Derived (n : string)
| DerivedBase (n : string).

#[global] Instance pyclass_eq_dec : EqDecision pyclass.
Proof. solve_decision. Defined.

Record exn := Exn { exc_class : pyclass; exc_text : string }.

(** [issubclass c d] on the classes above. *)
Definition issubclass (c d : pyclass) : bool :=
  match d with
  | BaseException => true
  | Exception =>
      match c with
      | Exception | EOFError | Derived _ => true
      | _ => false
      end
  | _ => bool_decide (c = d)
  end.

(** [except (d1, ..., dn):] handles [e] when [e] is an instance of one of the
    listed classes. *)
Definition handles (ds : list pyclass) (e : exn) : bool :=
  existsb (issubclass (exc_class e)) ds.

Inductive outcome (X : Type) :=
| Returned (x : X)
| Raised (e : exn).
Arguments Returned {X} x.
Arguments Raised {X} e.

(** ** The arguments of the [ChatBot] constructor *)

Record logic_adapter := {
  import_path : string;
  default_response : string;
  maximum_similarity_threshold : Q
}.

Record chatbot_args := {
  name : string;
  storage_adapter : string;
  database_uri : string;
  logic_adapters : list logic_adapter;
  preprocessors : list string;
  read_only : bool
}.

(** ** The external engine

    ChatterBot is not part of the command: its hidden state (with the
    persistent store), its handles and the results of its calls are
    parameters. *)

Record Engine := {
  engine_state : Type;
  Bot : Type;
  Trainer : Type;
  ChatBot : chatbot_args -> engine_state -> outcome Bot * engine_state;
  ChatterBotCorpusTrainer : Bot -> engine_state -> outcome Trainer * engine_state;
  train : Trainer -> string -> engine_state -> outcome unit * engine_state;
  get_response : Bot -> string -> engine_state -> outcome string * engine_state
}.

(** ** Console, standard input and the trace of a run *)

Inductive style := NOTICE | WARNING | SUCCESS.

Inductive call :=
| NewChatBot (args : chatbot_args)
| NewTrainer
| Train (corpus : string)
| GetResponse (text : string).

Inductive event :=
| Stdout (text : string)
| Styled (sty : style) (text : string)
| Called (c : call).

(** What one call of [input] meets: a line (without its newline), the end of
    the input, an interrupt, or another failure of the read. *)
Inductive input_event :=
| Line (text : string)
| EndOfInput
| Interrupt
| ReadFails (e : exn).

Record world (K : Engine) := World {
  engine : engine_state K;
  stdin : list input_event;
  trace : list event
}.
Arguments World {K} _ _ _.
Arguments engine {K} _.
Arguments stdin {K} _.
Arguments trace {K} _.

Definition nl : string := String (ascii_of_nat 10) EmptyString.

(** The texts given to [get_response] in a trace, in order. *)
Definition dispatches (t : list event) : list string :=
  omap (fun ev => match ev with Called (GetResponse s) => Some s | _ => None end) t.

(** ** The monad of the command: state and exceptions *)

Definition M (K : Engine) (X : Type) : Type := world K -> outcome X * world K.

Section Monad.
Context {K : Engine}.

Definition ret {X} (x : X) : M K X := fun w => (Returned x, w).

Definition bind {X Y} (m : M K X) (k : X -> M K Y) : M K Y :=
  fun w => match m w with
           | (Returned x, w') => k x w'
           | (Raised e, w') => (Raised e, w')
           end.

(** [try: body except (ds) as exc: handler exc]. *)
Definition try_except {X} (body : M K X) (ds : list pyclass)
    (handler : exn -> M K X) : M K X :=
  fun w => match body w with
           | (Raised e, w') => if handles ds e then handler e w' else (Raised e, w')
           | r => r
           end.

Definition emit (ev : event) : M K unit :=
  fun w => (Returned tt, World (engine w) (stdin w) (trace w ++ [ev])).

(** A call into the engine: recorded, then run on the engine's state. *)
Definition external {X} (c : call)
    (op : engine_state K -> outcome X * engine_state K) : M K X :=
  fun w => let (r, s) := op (engine w) in
           (r, World s (stdin w) (trace w ++ [Called c])).

End Monad.

Notation "x <- c1 ;; c2" := (bind c1 (fun x => c2))
  (at level 100, c1 at next level, right associativity).
Notation "c1 ;; c2" := (bind c1 (fun _ => c2))
  (at level 100, right associativity).

(** ** The command *)

Inductive flow := Continue | Break.

Section Command.
Context {K : Engine}.

(** [print(text)]: the text and a newline go to standard output. *)
Definition print (text : string) : M K unit := emit (Stdout (text ++ nl)).

(** [self.stdout.write(self.style.STYLE(text))]. *)
Definition stdout_write (sty : style) (text : string) : M K unit :=
  emit (Styled sty text).

(** [input(prompt)]: the prompt is written, then one event of the script is
    consumed; an exhausted script is the end of the input. *)
Definition input (prompt : string) : M K string :=
  fun w =>
    let t := (trace w ++ [Stdout prompt])%list in
    match stdin w with
    | [] => (Raised (Exn EOFError ""), World (engine w) [] t)
    | ev :: rest =>
        let w' := World (engine w) rest t in
        match ev with
        | Line s => (Returned s, w')
        | EndOfInput => (Raised (Exn EOFError ""), w')
        | Interrupt => (Raised (Exn KeyboardInterrupt ""), w')
        | ReadFails e => (Raised e, w')
        end
    end.

(** The arguments a command registers with its parser.  The command uses
    one action, [store_true]: the option takes no value, and the parsed
    options hold [True] when the parser found the option on the command
    line and [False], the default of the action, when it did not.  How the
    parser finds an option on the command line is not modelled. *)
Inductive arg_action := store_true.

Record argument := {
  option_string : string;
  action : arg_action;
  help : string
}.

Definition stored (a : arg_action) (given : bool) : bool :=
  match a with store_true => given end.

Fixpoint lstrip_dashes (s : string) : string :=
  match s with
  | String "-" r => lstrip_dashes r
  | _ => s
  end.

Fixpoint dashes_to_underscores (s : string) : string :=
  match s with
  | EmptyString => EmptyString
  | String c r =>
      String (if Ascii.eqb c "-" then "_"%char else c) (dashes_to_underscores r)
  end.

(** The key of an argument in the parsed options: its option string without
    the leading dashes, the other dashes turned into underscores. *)
Definition dest (a : argument) : string :=
  dashes_to_underscores (lstrip_dashes (option_string a)).

(** [parser.add_argument('--read-only', action='store_true', help=...)]. *)
Definition add_arguments (parser : list argument) : list argument :=
  parser ++
  [ {| option_string := "--read-only";
       action := store_true;
       help := "Run in read-only mode (no new statements written to storage)." |} ].

Definition chatbot_args_of (read_only : bool) : chatbot_args :=
  {| name := "TerminalBot";
     storage_adapter := "chatterbot.storage.SQLStorageAdapter";
     database_uri := "sqlite:///chatterbot.sqlite3";
     logic_adapters :=
       [ {| import_path := "chatterbot.logic.BestMatch";
            default_response := "I'm not sure I understand. Can you rephrase?";
            maximum_similarity_threshold := 80 # 100 |} ];
     preprocessors := [ "chatterbot.preprocessors.clean_whitespace" ];
     read_only := read_only |}.

Definition _build_chatbot (read_only : bool) : M K (Bot K) :=
  let args := chatbot_args_of read_only in
  chatbot <- external (NewChatBot args) (ChatBot K args) ;;
  ret chatbot.

Definition corpus : string := "chatterbot.corpus.english".

Definition preparing : string :=
  "Preparing and training the bot (first run may take a while)...".

Definition _train_if_needed (chatbot : Bot K) : M K unit :=
  stdout_write NOTICE preparing ;;
  trainer <- external NewTrainer (ChatterBotCorpusTrainer K chatbot) ;;
  try_except
    (external (Train corpus) (train K trainer corpus))
    [Exception]
    (fun exc =>
       stdout_write WARNING ("Training warning: " ++ exc_text exc) ;;
       stdout_write WARNING
         "Continuing; the bot may have limited knowledge this run.").

Definition sentinels : gset string := {[ "exit"; "quit" ]}.

(** One pass through the body of [while True:], from the prompt to the
    [break], the [continue] or the end of the body. *)
Definition chat_turn (chatbot : Bot K) : M K flow :=
  r <- try_except
         (line <- input "You: " ;; ret (Some (strip line)))
         [EOFError; KeyboardInterrupt]
         (fun _ => print "" ;; ret None) ;;
  match r with
  | None => ret Break
  | Some user_text =>
      if bool_decide (lower user_text ∈ sentinels) then
        print "Bot: Goodbye!" ;; ret Break
      else if negb (truthy user_text) then
        ret Continue
      else
        try_except
          (response <- external (GetResponse user_text)
                         (get_response K chatbot user_text) ;;
           print ("Bot: " ++ response))
          [Exception]
          (fun exc =>
             print ("Bot: Sorry, I ran into a problem: " ++ exc_text exc)) ;;
        ret Continue
  end.

Lemma chat_turn_consumes (chatbot : Bot K) (w w' : world K) :
  chat_turn chatbot w = (Returned Continue, w') ->
  length (stdin w') < length (stdin w).
Proof.
  unfold chat_turn, bind, try_except, input, print, emit, external, ret.
  destruct w as [s i t]; cbn [stdin engine trace].
  destruct i as [|[l| | |e] rest]; cbn -[bool_decide lower strip sentinels].
  - inversion 1.
  - destruct (bool_decide _); [inversion 1|].
    destruct (truthy (strip l)); cbn -[handles].
    + destruct (get_response K chatbot (strip l) s) as [[r|e] s']; cbn -[handles].
      * inversion 1; simpl; lia.
      * destruct (_ || _); inversion 1; simpl; lia.
    + inversion 1; simpl; lia.
  - inversion 1.
  - inversion 1.
  - destruct (_ || _); inversion 1.
Qed.

(** The [while True:] of [_chat_loop].  It is total: a pass that does not
    leave the loop has consumed one event of the input script. *)
Equations while_true (chatbot : Bot K) (w : world K) : outcome unit * world K
  by wf (length (stdin w)) lt :=
while_true chatbot w with Logic.inspect (chat_turn chatbot w) := {
  | exist _ (Returned Continue, w') H => while_true chatbot w'
  | exist _ (Returned Break, w') _ => (Returned tt, w')
  | exist _ (Raised e, w') _ => (Raised e, w') }.
Next Obligation. eapply chat_turn_consumes; eassumption. Qed.

Definition quote : string := String (ascii_of_nat 34) EmptyString.

(** The text ['Bot is ready. Type your message, or type "exit" to quit.']. *)
Definition ready : string :=
  "Bot is ready. Type your message, or type " ++ quote ++ "exit" ++ quote
  ++ " to quit.".

Definition _chat_loop (chatbot : Bot K) : M K unit :=
  stdout_write SUCCESS ready ;;
  while_true chatbot.

Definition handle (options : gmap string bool) : M K unit :=
  chatbot <- _build_chatbot (default false (options !! "read_only")) ;;
  _train_if_needed chatbot ;;
  _chat_loop chatbot.

End Command.

(** ** Sample engines

    An engine whose four entry points have fixed results; its state counts
    the calls made to it. *)

Definition fixed_engine (built : outcome unit) (made : outcome unit)
    (trained : outcome unit) (answer : string -> outcome string) : Engine :=
  {| engine_state := nat;
     Bot := unit;
     Trainer := unit;
     ChatBot := fun _ n => (built, S n);
     ChatterBotCorpusTrainer := fun _ n => (made, S n);
     train := fun _ _ n => (trained, S n);
     get_response := fun _ text n => (answer text, S n) |}.

(** Every call succeeds and the answer repeats the question. *)
Definition echo_engine : Engine :=
  fixed_engine (Returned tt) (Returned tt) (Returned tt) Returned.

(** [get_response] raises [e] on every text. *)
Definition failing_dispatch (e : exn) : Engine :=
  fixed_engine (Returned tt) (Returned tt) (Returned tt) (fun _ => Raised e).

(** [trainer.train] raises [e]. *)
Definition failing_training (e : exn) : Engine :=
  fixed_engine (Returned tt) (Returned tt) (Raised e) Returned.

(** The [ChatBot] constructor raises [e]. *)
Definition failing_construction (e : exn) : Engine :=
  fixed_engine (Raised e) (Returned tt) (Returned tt) Returned.

Definition value_error : exn := Exn (Derived "ValueError") "boom".
Definition interrupted : exn := Exn KeyboardInterrupt "".

(** An engine that honours the read-only flag: the agent remembers the flag
    it was constructed with, and a dispatch call stores the new statement
    (the state counts the stored statements) only when the flag is off. *)
Definition honouring_engine : Engine :=
  {| engine_state := nat;
     Bot := bool;
     Trainer := unit;
     ChatBot := fun args n => (Returned (read_only args), n);
     ChatterBotCorpusTrainer := fun _ n => (Returned tt, n);
     train := fun _ _ n => (Returned tt, n);
     get_response := fun ro text n =>
                       (Returned text, if ro : bool then n else S n) |}.

(** [K] with its constructor told [read_only = b], whatever the caller
    passes for it. *)
Definition told_read_only (b : bool) (K : Engine) : Engine :=
  {| engine_state := engine_state K;
     Bot := Bot K;
     Trainer := Trainer K;
     ChatBot := fun args =>
       ChatBot K {| name := name args;
                    storage_adapter := storage_adapter args;
                    database_uri := database_uri args;
                    logic_adapters := logic_adapters args;
                    preprocessors := preprocessors args;
                    read_only := b |};
     ChatterBotCorpusTrainer := ChatterBotCorpusTrainer K;
     train := train K;
     get_response := get_response K |}.

(** What is seen of a run: its result, the engine's state, the input left
    and the trace. *)
Definition observe {K : Engine} (r : outcome unit * world K)
    : outcome unit * (engine_state K * (list input_event * list event)) :=
  (fst r, (engine (snd r), (stdin (snd r), trace (snd r)))).

(** The options of a run without the flag, and of a run with it. *)
Definition no_options : gmap string bool := gmap_empty.
Definition read_only_options : gmap string bool :=
  <[ "read_only" := true ]> no_options.

(** A world at the start of a run: nothing written, the engine untouched. *)
Definition start (K : Engine) (s : engine_state K) (script : list input_event)
    : world K :=
  World s script [].

(** ** Runs that differ in what was written before

    [retrace t0 w] is [w] with [t0] in front of its trace; a computation is
    [trace_framed] when it only appends to the trace and never reads it. *)

Definition retrace {K : Engine} (t0 : list event) (w : world K) : world K :=
  World (engine w) (stdin w) (t0 ++ trace w).

Definition trace_framed {K : Engine} {X : Type} (m : M K X) : Prop :=
  forall (t0 : list event) (w : world K),
    m (retrace t0 w) = (fst (m w), retrace t0 (snd (m w))).

(** ** What a whole run of the loop does with a script

    Read off the body of [while True:]: the texts given to [get_response]
    are the stripped lines that are neither blank nor a sentinel, up to the
    first event that ends the loop; [unread] is the input left after that
    event. *)

Fixpoint expected_dispatches (script : list input_event) : list string :=
  match script with
  | Line l :: rest =>
      if bool_decide (lower (strip l) ∈ sentinels) then []
      else if truthy (strip l) then strip l :: expected_dispatches rest
      else expected_dispatches rest
  | _ => []
  end.

Fixpoint unread (script : list input_event) : list input_event :=
  match script with
  | [] => []
  | Line l :: rest =>
      if bool_decide (lower (strip l) ∈ sentinels) then rest
      else unread rest
  | _ :: rest => rest
  end.

(** The calls made to the engine in a trace, in order. *)
Definition calls (t : list event) : list call :=
  omap (fun ev => match ev with Called c => Some c | _ => None end) t.

(** The dispatch call of [chatbot] raises nothing but instances of
    [Exception]. *)
Definition dispatch_contained {K : Engine} (chatbot : Bot K) : Prop :=
  forall (text : string) (s s' : engine_state K) (e : exn),
    get_response K chatbot text s = (Raised e, s') ->
    issubclass (exc_class e) Exception = true.

(** The trainer's constructor raises [e]. *)
Definition failing_trainer (e : exn) : Engine :=
  fixed_engine (Returned tt) (Raised e) (Returned tt) Returned.

Definition decode_error : exn := Exn (Derived "UnicodeDecodeError") "bad byte".

(** Training and every dispatch call fail with an instance of [Exception]. *)
Definition degraded_engine : Engine :=
  fixed_engine (Returned tt) (Returned tt) (Raised value_error)
    (fun _ => Raised value_error).

(** * Properties *)

(** ** Stripping and lower-casing *)

Section StrFacts.
Local Open Scope string_scope.

Lemma isspace_lower_char (c : ascii) : isspace (lower_char c) = isspace c.
Proof. destruct c as [[] [] [] [] [] [] [] []]; reflexivity. Qed.

Lemma first_char_lower (s : string) :
  first_char (lower s) = lower_char <$> first_char s.
Proof. destruct s; reflexivity. Qed.

Lemma last_char_lower (s : string) :
  last_char (lower s) = lower_char <$> last_char s.
Proof.
  induction s as [|c r IH]; [reflexivity|].
  destruct r as [|d r']; [reflexivity|].
  exact IH.
Qed.

Lemma trimmed_lower (s : string) : trimmed (lower s) -> trimmed s.
Proof.
  intros [Hf Hl]; split; intros c Hc.
  - rewrite <- isspace_lower_char. apply Hf.
    rewrite first_char_lower, Hc. reflexivity.
  - rewrite <- isspace_lower_char. apply Hl.
    rewrite last_char_lower, Hc. reflexivity.
Qed.

Lemma lstrip_all_space (s : string) : all_space s = true -> lstrip s = "".
Proof.
  induction s as [|c r IH]; simpl; [reflexivity|].
  intros [Hc Hr]%andb_prop. rewrite Hc. auto.
Qed.

Lemma strip_all_space (s : string) : all_space s = true -> strip s = "".
Proof. intros H. unfold strip. rewrite lstrip_all_space by exact H. reflexivity. Qed.

Lemma first_char_lstrip (s : string) (c : ascii) :
  first_char (lstrip s) = Some c -> isspace c = false.
Proof.
  induction s as [|d r IH]; simpl; [discriminate|].
  destruct (isspace d) eqn:Hd; [exact IH|].
  simpl. intros [= <-]. exact Hd.
Qed.

Lemma rstrip_cons (c : ascii) (r : string) :
  isspace c = false -> rstrip (String c r) = String c (rstrip r).
Proof. intros Hc. simpl. rewrite Hc. destruct (rstrip r); reflexivity. Qed.

Lemma first_char_rstrip (s : string) (c : ascii) :
  first_char (rstrip s) = Some c -> first_char s = Some c.
Proof.
  destruct s as [|d r]; simpl; [discriminate|].
  destruct (rstrip r); [destruct (isspace d)|]; simpl; congruence.
Qed.

Lemma last_char_rstrip (s : string) (c : ascii) :
  last_char (rstrip s) = Some c -> isspace c = false.
Proof.
  induction s as [|d r IH]; simpl; [discriminate|].
  destruct (rstrip r) as [|d' r'] eqn:Hr.
  - destruct (isspace d) eqn:Hd; simpl; [discriminate|].
    intros [= <-]. exact Hd.
  - simpl. exact IH.
Qed.

Lemma strip_trimmed (s : string) : trimmed (strip s).
Proof.
  unfold strip; split; intros c Hc.
  - apply first_char_rstrip in Hc. eapply first_char_lstrip, Hc.
  - eapply last_char_rstrip, Hc.
Qed.

Lemma lstrip_fixed (s : string) :
  (forall c, first_char s = Some c -> isspace c = false) -> lstrip s = s.
Proof.
  destruct s as [|c r]; simpl; [reflexivity|].
  intros H. rewrite (H c eq_refl). reflexivity.
Qed.

Lemma rstrip_fixed (s : string) :
  (forall c, last_char s = Some c -> isspace c = false) -> rstrip s = s.
Proof.
  induction s as [|c r IH]; [reflexivity|].
  intros H. destruct r as [|d r'].
  - simpl. rewrite (H c eq_refl). reflexivity.
  - simpl in H. specialize (IH H).
    change (rstrip (String c (String d r')))
      with (match rstrip (String d r') with
            | EmptyString => if isspace c then EmptyString else String c EmptyString
            | r0 => String c r0
            end).
    rewrite IH. reflexivity.
Qed.

Lemma strip_fixed (s : string) : trimmed s -> strip s = s.
Proof.
  intros [Hf Hl]. unfold strip. rewrite lstrip_fixed by exact Hf.
  apply rstrip_fixed, Hl.
Qed.

Lemma lstrip_app_space (l s : string) :
  all_space l = true -> lstrip (l ++ s) = lstrip s.
Proof.
  induction l as [|c r IH]; simpl; [reflexivity|].
  intros [Hc Hr]%andb_prop. rewrite Hc. auto.
Qed.

Lemma rstrip_space (r : string) : all_space r = true -> rstrip r = "".
Proof.
  induction r as [|c r IH]; simpl; [reflexivity|].
  intros [Hc Hr]%andb_prop. rewrite IH, Hc by exact Hr. reflexivity.
Qed.

Lemma rstrip_app_space (s r : string) :
  all_space r = true -> rstrip (s ++ r) = rstrip s.
Proof.
  intros Hr. induction s as [|c s IH]; simpl.
  - apply rstrip_space, Hr.
  - rewrite IH. reflexivity.
Qed.

Lemma strip_padded (l s r : string) :
  all_space l = true -> all_space r = true -> trimmed s ->
  strip (l ++ s ++ r) = s.
Proof.
  intros Hl Hr [Hf Hla]. unfold strip.
  rewrite lstrip_app_space by exact Hl.
  destruct s as [|c s'].
  - simpl. rewrite lstrip_all_space by exact Hr. reflexivity.
  - assert (Hc : isspace c = false) by (apply Hf; reflexivity).
    change ((String c s' ++ r)) with (String c (s' ++ r)).
    cbn [lstrip]. rewrite Hc.
    change (String c (s' ++ r)) with (String c s' ++ r).
    rewrite rstrip_app_space by exact Hr.
    apply rstrip_fixed, Hla.
Qed.

Lemma strip_empty_not_truthy (s : string) : truthy s = false <-> s = "".
Proof. destruct s; simpl; split; congruence. Qed.

Lemma in_sentinels (s : string) :
  s ∈ ({[ "exit"; "quit" ]} : gset string) <-> s = "exit" \/ s = "quit".
Proof. rewrite elem_of_union, !elem_of_singleton. reflexivity. Qed.

Lemma sentinel_trimmed (s : string) :
  lower s = "exit" \/ lower s = "quit" -> trimmed s.
Proof.
  intros H. apply trimmed_lower.
  destruct H as [-> | ->]; split; intros c [= <-]; reflexivity.
Qed.

End StrFacts.

(** ** One pass of the loop, case by case *)

Ltac run_turn :=
  unfold chat_turn, bind, try_except, input, print, emit, external, ret;
  cbn [stdin engine trace].

Section Turn.
Context {K : Engine}.
Implicit Types (chatbot : Bot K) (w : world K).

Lemma while_true_step chatbot w :
  while_true chatbot w =
  match chat_turn chatbot w with
  | (Returned Continue, w') => while_true chatbot w'
  | (Returned Break, w') => (Returned tt, w')
  | (Raised e, w') => (Raised e, w')
  end.
Proof.
  funelim (while_true chatbot w);
    match goal with Hc : chat_turn _ _ = _ |- _ => rewrite Hc end;
    reflexivity.
Qed.

Lemma chat_turn_sentinel chatbot w (l : string) (rest : list input_event) :
  stdin w = Line l :: rest ->
  lower (strip l) ∈ sentinels ->
  chat_turn chatbot w =
  (Returned Break,
   World (engine w) rest
     (trace w ++ [Stdout "You: "; Stdout ("Bot: Goodbye!" ++ nl)])).
Proof.
  intros Hin Hs. run_turn. rewrite Hin.
  rewrite (bool_decide_eq_true_2 _ Hs).
  cbn [trace engine stdin]. rewrite <- app_assoc. reflexivity.
Qed.

Lemma chat_turn_blank chatbot w (l : string) (rest : list input_event) :
  stdin w = Line l :: rest ->
  strip l = "" ->
  chat_turn chatbot w =
  (Returned Continue, World (engine w) rest (trace w ++ [Stdout "You: "])).
Proof.
  intros Hin Hs. run_turn. rewrite Hin, Hs. reflexivity.
Qed.

Lemma chat_turn_dispatch chatbot w (l : string) (rest : list input_event) :
  stdin w = Line l :: rest ->
  lower (strip l) ∉ sentinels ->
  strip l <> "" ->
  chat_turn chatbot w =
  let t := (trace w ++ [Stdout "You: "; Called (GetResponse (strip l))])%list in
  match get_response K chatbot (strip l) (engine w) with
  | (Returned response, s) =>
      (Returned Continue,
       World s rest (t ++ [Stdout (("Bot: " ++ response) ++ nl)]))
  | (Raised e, s) =>
      if issubclass (exc_class e) Exception then
        (Returned Continue,
         World s rest
           (t ++ [Stdout (("Bot: Sorry, I ran into a problem: "
                           ++ exc_text e) ++ nl)]))
      else (Raised e, World s rest t)
  end.
Proof.
  intros Hin Hs He. run_turn. rewrite Hin.
  rewrite (bool_decide_eq_false_2 _ Hs).
  destruct (truthy (strip l)) eqn:Ht;
    [|apply strip_empty_not_truthy in Ht; contradiction].
  cbn [negb trace engine stdin].
  destruct (get_response K chatbot (strip l) (engine w)) as [[r|e] s];
    cbn [trace engine stdin].
  - rewrite <- !app_assoc. reflexivity.
  - unfold handles. cbn [existsb]. rewrite orb_false_r.
    destruct (issubclass (exc_class e) Exception);
      cbn [trace engine stdin]; rewrite <- !app_assoc; reflexivity.
Qed.

Lemma chat_turn_signal chatbot w :
  head (stdin w) = None \/ head (stdin w) = Some EndOfInput
  \/ head (stdin w) = Some Interrupt ->
  chat_turn chatbot w =
  (Returned Break,
   World (engine w) (tail (stdin w)) (trace w ++ [Stdout "You: "; Stdout nl])).
Proof.
  intros H. run_turn.
  destruct (stdin w) as [|[l| | |e] rest]; simpl in H;
    try (destruct H as [H|[H|H]]; discriminate);
    cbn; rewrite <- app_assoc; reflexivity.
Qed.

Lemma dispatches_app (t u : list event) :
  dispatches (t ++ u) = dispatches t ++ dispatches u.
Proof. apply omap_app. Qed.

(** A pass makes at most one dispatch call, on the stripped line, which is
    then not empty. *)
Lemma chat_turn_dispatched chatbot w :
  dispatches (trace (snd (chat_turn chatbot w))) = dispatches (trace w) \/
  exists (l : string) (rest : list input_event),
    stdin w = Line l :: rest /\ strip l <> "" /\
    dispatches (trace (snd (chat_turn chatbot w)))
    = dispatches (trace w) ++ [strip l].
Proof.
  destruct (stdin w) as [|[l| | |e] rest] eqn:Hin.
  - left. rewrite chat_turn_signal by (rewrite Hin; auto).
    cbn [snd trace]. rewrite dispatches_app. apply app_nil_r.
  - destruct (decide (lower (strip l) ∈ sentinels)) as [Hs|Hs].
    { left. rewrite (chat_turn_sentinel _ _ _ _ Hin Hs).
      cbn [snd trace]. rewrite dispatches_app. apply app_nil_r. }
    destruct (decide (strip l = "")) as [He|He].
    { left. rewrite (chat_turn_blank _ _ _ _ Hin He).
      cbn [snd trace]. rewrite dispatches_app. apply app_nil_r. }
    right. exists l, rest. split; [reflexivity|]. split; [exact He|].
    rewrite (chat_turn_dispatch _ _ _ _ Hin Hs He). cbv zeta.
    destruct (get_response K chatbot (strip l) (engine w)) as [[r|e] s];
      [|destruct (issubclass (exc_class e) Exception)];
      cbn [snd trace]; rewrite !dispatches_app; cbn;
      rewrite ?app_nil_r; reflexivity.
  - left. rewrite chat_turn_signal by (rewrite Hin; auto).
    cbn [snd trace]. rewrite dispatches_app. apply app_nil_r.
  - left. rewrite chat_turn_signal by (rewrite Hin; auto).
    cbn [snd trace]. rewrite dispatches_app. apply app_nil_r.
  - left. run_turn. rewrite Hin. unfold handles. cbn [existsb exc_class].
    destruct (_ || _); cbn [snd trace]; rewrite ?dispatches_app; cbn;
      rewrite ?app_nil_r; reflexivity.
Qed.

(** Every text given to [get_response] by the loop is a stripped, non-empty
    line. *)
Lemma while_true_dispatched chatbot w :
  exists new : list string,
    dispatches (trace (snd (while_true chatbot w)))
    = dispatches (trace w) ++ new /\
    Forall (fun u => trimmed u /\ u <> "") new.
Proof.
  funelim (while_true chatbot w);
    match goal with Hc : chat_turn _ _ = _ |- _ => rename Hc into Hturn end;
    pose proof (chat_turn_dispatched chatbot w) as Hd;
    rewrite Hturn in Hd; cbn [snd] in Hd.
  - match goal with IH : exists _, _ |- _ => destruct IH as (new & Hn & Hf) end.
    destruct Hd as [Hd|(l & rest & _ & He & Hd)]; rewrite Hn, Hd.
    + exists new. auto.
    + exists (strip l :: new). rewrite <- app_assoc. split; [reflexivity|].
      constructor; [split; [apply strip_trimmed|exact He]|exact Hf].
  - cbn [snd]. destruct Hd as [Hd|(l & rest & _ & He & Hd)]; rewrite Hd.
    + exists []. rewrite app_nil_r. auto.
    + exists [strip l]. split; [reflexivity|].
      constructor; [split; [apply strip_trimmed|exact He]|constructor].
  - cbn [snd]. destruct Hd as [Hd|(l & rest & _ & He & Hd)]; rewrite Hd.
    + exists []. rewrite app_nil_r. auto.
    + exists [strip l]. split; [reflexivity|].
      constructor; [split; [apply strip_trimmed|exact He]|constructor].
Qed.

End Turn.

(** ** The interactive loop *)

Section Loop.
Context {K : Engine}.
Implicit Types (chatbot : Bot K) (w : world K).

(** C1 (as amended).  When the dispatch call [get_response] raises [e] for an
    input line, and [e] is an instance of [Exception], the pass prints one
    diagnostic line made of the fixed prefix and the text of [e], and the
    loop goes on from the next prompt with the rest of the input: the
    exception does not leave the loop.  When [e] is not an instance of
    [Exception] (as [KeyboardInterrupt] or [SystemExit]) nothing is printed
    and [e] leaves the loop. *)
Theorem dispatch_error_contained chatbot w (l : string)
    (rest : list input_event) (e : exn) (s : engine_state K) :
  stdin w = Line l :: rest ->
  lower (strip l) ∉ sentinels ->
  strip l <> "" ->
  get_response K chatbot (strip l) (engine w) = (Raised e, s) ->
  let t := (trace w ++ [Stdout "You: "; Called (GetResponse (strip l))])%list in
  if issubclass (exc_class e) Exception then
    let w' :=
      World s rest
        (t ++ [Stdout (("Bot: Sorry, I ran into a problem: " ++ exc_text e)
                       ++ nl)]) in
    chat_turn chatbot w = (Returned Continue, w') /\
    while_true chatbot w = while_true chatbot w'
  else
    chat_turn chatbot w = (Raised e, World s rest t) /\
    while_true chatbot w = (Raised e, World s rest t).
Proof.
  intros Hin Hs He Hr t.
  pose proof (chat_turn_dispatch chatbot w l rest Hin Hs He) as Ht.
  rewrite Hr in Ht. cbv zeta in Ht. fold t in Ht.
  rewrite (while_true_step chatbot w).
  destruct (issubclass (exc_class e) Exception);
    rewrite Ht; split; reflexivity.
Qed.

(** C2.  An input line that is "exit" or "quit" up to the case of its
    letters ends the loop: the farewell is printed, [get_response] is not
    called and the engine is left as it was. *)
Theorem sentinel_terminates chatbot w (l : string) (rest : list input_event) :
  stdin w = Line l :: rest ->
  lower l = "exit" \/ lower l = "quit" ->
  let w' :=
    World (engine w) rest
      (trace w ++ [Stdout "You: "; Stdout ("Bot: Goodbye!" ++ nl)]) in
  chat_turn chatbot w = (Returned Break, w') /\
  while_true chatbot w = (Returned tt, w') /\
  dispatches (trace w') = dispatches (trace w).
Proof.
  intros Hin Hl w'.
  assert (Hs : lower (strip l) ∈ sentinels).
  { rewrite strip_fixed by (apply sentinel_trimmed, Hl).
    apply in_sentinels, Hl. }
  pose proof (chat_turn_sentinel chatbot w l rest Hin Hs) as Ht.
  split; [exact Ht|]. split.
  - rewrite while_true_step, Ht. reflexivity.
  - unfold w', dispatches. cbn [trace]. rewrite omap_app. cbn.
    apply app_nil_r.
Qed.

(** C4.  An empty or whitespace-only input line is a no-op: the pass only
    writes the prompt, makes no call to the engine, and the loop goes on
    from the next prompt with the rest of the input. *)
Theorem blank_line_ignored chatbot w (l : string) (rest : list input_event) :
  stdin w = Line l :: rest ->
  all_space l = true ->
  let w' := World (engine w) rest (trace w ++ [Stdout "You: "]) in
  chat_turn chatbot w = (Returned Continue, w') /\
  while_true chatbot w = while_true chatbot w' /\
  dispatches (trace w') = dispatches (trace w).
Proof.
  intros Hin Hl w'.
  pose proof (chat_turn_blank chatbot w l rest Hin (strip_all_space l Hl)) as Ht.
  split; [exact Ht|]. split.
  - rewrite (while_true_step chatbot w), Ht. reflexivity.
  - unfold w', dispatches. cbn [trace]. rewrite omap_app. cbn.
    apply app_nil_r.
Qed.

(** C5.  When [input] meets the end of the input (signalled, or the script
    is exhausted) or an interrupt, the loop ends normally: after the prompt
    exactly one newline is written, no call is made to the engine, and no
    exception leaves the loop. *)
Theorem signal_terminates chatbot w :
  head (stdin w) = None \/ head (stdin w) = Some EndOfInput
  \/ head (stdin w) = Some Interrupt ->
  let w' :=
    World (engine w) (tail (stdin w))
      (trace w ++ [Stdout "You: "; Stdout nl]) in
  chat_turn chatbot w = (Returned Break, w') /\
  while_true chatbot w = (Returned tt, w') /\
  String.length nl = 1.
Proof.
  intros H w'. pose proof (chat_turn_signal chatbot w H) as Ht.
  split; [exact Ht|]. split; [|reflexivity].
  rewrite while_true_step, Ht. reflexivity.
Qed.

End Loop.

(** ** The trace is append-only *)

Section Frame.
Context {K : Engine}.

Lemma framed_ret {X} (x : X) : trace_framed (K:=K) (ret x).
Proof. intros t0 w. reflexivity. Qed.

Lemma framed_bind {X Y} (m : M K X) (k : X -> M K Y) :
  trace_framed m -> (forall x, trace_framed (k x)) -> trace_framed (bind m k).
Proof.
  intros Hm Hk t0 w. unfold bind. rewrite Hm.
  destruct (m w) as [[x|e] w']; cbn [fst snd]; [apply Hk|reflexivity].
Qed.

Lemma framed_try_except {X} (body : M K X) (ds : list pyclass)
    (handler : exn -> M K X) :
  trace_framed body -> (forall e, trace_framed (handler e)) ->
  trace_framed (try_except body ds handler).
Proof.
  intros Hb Hh t0 w. unfold try_except. rewrite Hb.
  destruct (body w) as [[x|e] w']; cbn [fst snd]; [reflexivity|].
  destruct (handles ds e); [apply Hh|reflexivity].
Qed.

Lemma framed_emit (ev : event) : trace_framed (K:=K) (emit ev).
Proof.
  intros t0 w. unfold emit, retrace. cbn. rewrite app_assoc. reflexivity.
Qed.

Lemma framed_external {X} (c : call)
    (op : engine_state K -> outcome X * engine_state K) :
  trace_framed (external c op).
Proof.
  intros t0 w. unfold external, retrace. cbn.
  destruct (op (engine w)) as [r s]. cbn. rewrite app_assoc. reflexivity.
Qed.

Lemma framed_input (prompt : string) : trace_framed (K:=K) (input prompt).
Proof.
  intros t0 w. unfold input, retrace. cbn.
  destruct (stdin w) as [|[l| | |e] rest]; cbn; rewrite app_assoc; reflexivity.
Qed.

Lemma framed_chat_turn (chatbot : Bot K) : trace_framed (chat_turn chatbot).
Proof.
  unfold chat_turn, print, stdout_write.
  apply framed_bind.
  - apply framed_try_except.
    + apply framed_bind; [apply framed_input|intros; apply framed_ret].
    + intros _. apply framed_bind; [apply framed_emit|intros; apply framed_ret].
  - intros [u|]; [|apply framed_ret].
    destruct (bool_decide _).
    { apply framed_bind; [apply framed_emit|intros; apply framed_ret]. }
    destruct (negb _); [apply framed_ret|].
    apply framed_bind; [|intros; apply framed_ret].
    apply framed_try_except.
    + apply framed_bind; [apply framed_external|intros; apply framed_emit].
    + intros e. apply framed_emit.
Qed.

Lemma framed_while_true (chatbot : Bot K) : trace_framed (while_true chatbot).
Proof.
  intros t0 w. funelim (while_true chatbot w);
    match goal with Hc : chat_turn _ _ = _ |- _ => rename Hc into Hturn end;
    rewrite (while_true_step chatbot (retrace t0 w)), framed_chat_turn, Hturn;
    cbn [fst snd]; auto.
Qed.

Lemma framed_chat_loop (chatbot : Bot K) : trace_framed (_chat_loop chatbot).
Proof.
  unfold _chat_loop, stdout_write.
  apply framed_bind; [apply framed_emit|intros; apply framed_while_true].
Qed.

Lemma framed_train_if_needed (chatbot : Bot K) :
  trace_framed (_train_if_needed chatbot).
Proof.
  unfold _train_if_needed, stdout_write.
  apply framed_bind; [apply framed_emit|intros _].
  apply framed_bind; [apply framed_external|intros trainer].
  apply framed_try_except; [apply framed_external|intros e].
  apply framed_bind; [apply framed_emit|intros; apply framed_emit].
Qed.

(** The trace after a framed computation is the trace before it followed
    by what the computation writes from an empty trace. *)
Lemma framed_extends {X} (m : M K X) (w : world K) :
  trace_framed m ->
  m w = (fst (m (World (engine w) (stdin w) [])),
         retrace (trace w) (snd (m (World (engine w) (stdin w) [])))).
Proof.
  intros Hm. rewrite <- Hm. unfold retrace. cbn. rewrite app_nil_r.
  destruct w; reflexivity.
Qed.

(** The first thing the loop does is to prompt. *)
Lemma while_true_prompts (chatbot : Bot K) (w : world K) :
  exists d : list event,
    trace (snd (while_true chatbot w)) = trace w ++ Stdout "You: " :: d.
Proof.
  assert (Hp : forall w0 : world K, exists d,
             trace (snd (chat_turn chatbot w0)) = trace w0 ++ Stdout "You: " :: d).
  { intros w0. run_turn.
    destruct (stdin w0) as [|[l| | |e] rest]; cbn -[bool_decide lower strip handles].
    - eexists. rewrite <- app_assoc. reflexivity.
    - destruct (bool_decide _); cbn -[handles truthy lower strip].
      { eexists. rewrite <- app_assoc. reflexivity. }
      destruct (negb _); cbn -[handles lower strip].
      { eexists. reflexivity. }
      destruct (get_response _ _ _ _) as [[r|e] s]; cbn -[handles lower strip].
      + eexists. rewrite <- !app_assoc. reflexivity.
      + destruct (handles _ e); cbn; eexists; rewrite <- !app_assoc; reflexivity.
    - eexists. rewrite <- app_assoc. reflexivity.
    - eexists. rewrite <- app_assoc. reflexivity.
    - destruct (handles _ e); cbn; eexists; rewrite <- ?app_assoc; reflexivity. }
  rewrite while_true_step. destruct (Hp w) as [d Hd].
  destruct (chat_turn chatbot w) as [[[|]|e] w'] eqn:Ht; cbn [snd] in *;
    try (exists d; exact Hd).
  rewrite (framed_extends _ w' (framed_while_true chatbot)). cbn [snd retrace trace].
  rewrite Hd. eexists. rewrite <- app_assoc. reflexivity.
Qed.

End Frame.

(** ** Stripping, and the scenario of the specification *)

Section Stripping.
Context {K : Engine}.
Implicit Types (chatbot : Bot K) (w : world K).

(** C9.  The line is stripped before anything else is done with it.  A
    sentinel with whitespace around it still ends the loop without a
    dispatch call.  A pass depends on its line only through the stripped
    line: two lines with the same stripping give the same pass, and the
    text given to [get_response] is the stripped line itself, for every line
    that is not blank and not a sentinel, and nothing otherwise.  So every
    text that the loop gives to [get_response] is non-empty and neither
    starts nor ends with whitespace. *)
Theorem input_is_stripped chatbot :
  (forall w (l s r : string) (rest : list input_event),
      stdin w = Line (l ++ s ++ r) :: rest ->
      all_space l = true -> all_space r = true ->
      lower s = "exit" \/ lower s = "quit" ->
      let w' :=
        World (engine w) rest
          (trace w ++ [Stdout "You: "; Stdout ("Bot: Goodbye!" ++ nl)]) in
      chat_turn chatbot w = (Returned Break, w') /\
      while_true chatbot w = (Returned tt, w')) /\
  (forall w (l l' : string) (rest : list input_event),
      stdin w = Line l :: rest ->
      strip l' = strip l ->
      chat_turn chatbot w
      = chat_turn chatbot (World (engine w) (Line l' :: rest) (trace w))) /\
  (forall w (l : string) (rest : list input_event),
      stdin w = Line l :: rest ->
      dispatches (trace (snd (chat_turn chatbot w)))
      = dispatches (trace w)
        ++ (if bool_decide (lower (strip l) ∈ sentinels)
               || negb (truthy (strip l))
            then [] else [strip l])) /\
  (forall w, exists new : list string,
      dispatches (trace (snd (_chat_loop chatbot w)))
      = dispatches (trace w) ++ new /\
      Forall (fun u => trimmed u /\ u <> "") new).
Proof.
  split; [|split; [|split]].
  - intros w l s r rest Hin Hl Hr Hs w'.
    assert (Hm : lower (strip (l ++ s ++ r)) ∈ sentinels).
    { rewrite strip_padded by (auto using sentinel_trimmed).
      apply in_sentinels, Hs. }
    pose proof (chat_turn_sentinel chatbot w _ rest Hin Hm) as Ht.
    split; [exact Ht|]. rewrite while_true_step, Ht. reflexivity.
  - intros w l l' rest Hin Hl.
    set (v := World (engine w) (Line l' :: rest) (trace w)).
    assert (Hv : stdin v = Line l' :: rest) by reflexivity.
    destruct (decide (lower (strip l) ∈ sentinels)) as [Hs|Hs].
    { rewrite (chat_turn_sentinel _ w l rest Hin Hs).
      rewrite (chat_turn_sentinel _ v l' rest Hv) by (rewrite Hl; exact Hs).
      reflexivity. }
    destruct (decide (strip l = "")) as [He|He].
    { rewrite (chat_turn_blank _ w l rest Hin He).
      rewrite (chat_turn_blank _ v l' rest Hv) by (rewrite Hl; exact He).
      reflexivity. }
    rewrite (chat_turn_dispatch _ w l rest Hin Hs He).
    rewrite (chat_turn_dispatch _ v l' rest Hv) by (rewrite Hl; assumption).
    rewrite Hl. reflexivity.
  - intros w l rest Hin.
    destruct (bool_decide (lower (strip l) ∈ sentinels)) eqn:Hs.
    { apply bool_decide_eq_true_1 in Hs.
      rewrite (chat_turn_sentinel _ _ _ _ Hin Hs). cbn [snd trace orb].
      rewrite dispatches_app. reflexivity. }
    apply bool_decide_eq_false_1 in Hs. cbn [orb].
    destruct (truthy (strip l)) eqn:Ht; cbn [negb].
    + assert (He : strip l <> "")
        by (intros He; apply strip_empty_not_truthy in He; congruence).
      rewrite (chat_turn_dispatch _ _ _ _ Hin Hs He). cbv zeta.
      destruct (get_response K chatbot (strip l) (engine w)) as [[r|e] s];
        [|destruct (issubclass (exc_class e) Exception)];
        cbn [snd trace]; rewrite !dispatches_app; cbn;
        rewrite ?app_nil_r; reflexivity.
    + apply strip_empty_not_truthy in Ht.
      rewrite (chat_turn_blank _ _ _ _ Hin Ht). cbn [snd trace].
      rewrite dispatches_app. reflexivity.
  - intros w. unfold _chat_loop, bind, stdout_write, emit.
    match goal with
    | |- context [while_true chatbot ?w0] =>
        destruct (while_true_dispatched chatbot w0) as (new & Hn & Hf)
    end.
    exists new. split; [|exact Hf].
    rewrite Hn. cbn [trace]. rewrite dispatches_app. cbn.
    rewrite app_nil_r. reflexivity.
Qed.

(** C6 (as amended).  On the input lines "hello", "" and "quit", when the
    dispatch call for "hello" returns or raises an instance of [Exception],
    [_chat_loop] returns normally with all three lines read: it has called
    [get_response] once, on "hello", has written the answer or the
    diagnostic, only a prompt for the blank line, and the farewell. *)
Theorem scenario_hello_blank_quit chatbot w :
  stdin w = [Line "hello"; Line ""; Line "quit"] ->
  (forall e s, get_response K chatbot "hello" (engine w) = (Raised e, s) ->
               issubclass (exc_class e) Exception = true) ->
  let reply :=
    match fst (get_response K chatbot "hello" (engine w)) with
    | Returned response => "Bot: " ++ response
    | Raised e => "Bot: Sorry, I ran into a problem: " ++ exc_text e
    end%string in
  let w' :=
    World (snd (get_response K chatbot "hello" (engine w))) []
      (trace w ++
       [Styled SUCCESS ready;
        Stdout "You: "; Called (GetResponse "hello"); Stdout (reply ++ nl);
        Stdout "You: ";
        Stdout "You: "; Stdout ("Bot: Goodbye!" ++ nl)]) in
  _chat_loop chatbot w = (Returned tt, w') /\
  dispatches (trace w') = dispatches (trace w) ++ ["hello"].
Proof.
  intros Hin Hexc reply w'. split.
  - unfold _chat_loop, bind, stdout_write, emit.
    rewrite while_true_step.
    erewrite chat_turn_dispatch; cycle 1.
    { cbn [stdin]. exact Hin. }
    { intros [H|H]%in_sentinels; vm_compute in H; discriminate. }
    { discriminate. }
    change (strip "hello") with "hello". cbn [engine trace]. cbv zeta.
    subst w' reply.
    destruct (get_response K chatbot "hello" (engine w)) as [[r|e] s] eqn:Hg;
      [|rewrite (Hexc e s eq_refl)]; cbn [fst snd].
    all: rewrite while_true_step;
      erewrite chat_turn_blank by (cbn [stdin]; reflexivity);
      rewrite while_true_step;
      erewrite chat_turn_sentinel
        by (first [reflexivity | apply in_sentinels; right; reflexivity]);
      cbn [engine trace]; rewrite <- !app_assoc; reflexivity.
  - subst w'. cbn [trace]. rewrite dispatches_app. reflexivity.
Qed.

End Stripping.

(** ** The entry point: construction, training, loop *)

Section Handle.
Context {K : Engine}.
Implicit Types (w : world K) (options : gmap string bool).

(** [handle] is the constructor call followed by a continuation in which
    the options no longer occur. *)
Lemma handle_unfold options w :
  handle options w =
  let args := chatbot_args_of (default false (options !! "read_only")) in
  match ChatBot K args (engine w) with
  | (Returned chatbot, s) =>
      (_train_if_needed chatbot ;; _chat_loop chatbot)
        (World s (stdin w) (trace w ++ [Called (NewChatBot args)]))
  | (Raised e, s) =>
      (Raised e, World s (stdin w) (trace w ++ [Called (NewChatBot args)]))
  end.
Proof.
  unfold handle, _build_chatbot, bind at 1 2, external, ret. cbv zeta.
  destruct (ChatBot K _ (engine w)) as [[chatbot|e] s]; reflexivity.
Qed.

(** C7.  Whatever exception the [ChatBot] constructor raises, of any class,
    [handle] raises it unchanged: nothing is written, the trainer is not
    made, and the loop is not entered (no prompt, no input consumed). *)
Theorem construction_failure_propagates options w (e : exn)
    (s : engine_state K) :
  let args := chatbot_args_of (default false (options !! "read_only")) in
  ChatBot K args (engine w) = (Raised e, s) ->
  handle options w =
  (Raised e, World s (stdin w) (trace w ++ [Called (NewChatBot args)])).
Proof.
  intros args Hc. rewrite handle_unfold. cbv zeta. subst args.
  rewrite Hc. reflexivity.
Qed.

(** X7.  The trainer is made before the [try:] of [_train_if_needed]: an
    exception of any class from its constructor leaves [handle], after the
    notice and before any training call, warning or prompt. *)
Lemma trainer_construction_failure_propagates options w (chatbot : Bot K)
    (e : exn) (s1 s2 : engine_state K) :
  let args := chatbot_args_of (default false (options !! "read_only")) in
  ChatBot K args (engine w) = (Returned chatbot, s1) ->
  ChatterBotCorpusTrainer K chatbot s1 = (Raised e, s2) ->
  handle options w =
  (Raised e,
   World s2 (stdin w)
     (trace w ++ [Called (NewChatBot args); Styled NOTICE preparing;
                  Called NewTrainer])).
Proof.
  intros args Hc Hm. rewrite handle_unfold. cbv zeta. fold args. rewrite Hc.
  unfold _train_if_needed, bind at 1 2 3, stdout_write, emit, external.
  cbn [engine stdin trace]. rewrite Hm. rewrite <- !app_assoc. reflexivity.
Qed.

(** C3 (as amended).  When the agent and the trainer are constructed and
    [trainer.train] raises [e], an instance of [Exception], two warning lines
    are written, the first with the text of [e], and [handle] goes on with
    [_chat_loop], which writes its banner and prompts.  When [e] is not an
    instance of [Exception] it leaves [handle] and the loop is not entered. *)
Theorem training_failure_contained options w (chatbot : Bot K)
    (trainer : Trainer K) (e : exn) (s1 s2 s3 : engine_state K) :
  let args := chatbot_args_of (default false (options !! "read_only")) in
  ChatBot K args (engine w) = (Returned chatbot, s1) ->
  ChatterBotCorpusTrainer K chatbot s1 = (Returned trainer, s2) ->
  train K trainer corpus s2 = (Raised e, s3) ->
  let t := trace w ++ [Called (NewChatBot args); Styled NOTICE preparing;
                       Called NewTrainer; Called (Train corpus)] in
  if issubclass (exc_class e) Exception then
    let w' :=
      World s3 (stdin w)
        (t ++ [Styled WARNING ("Training warning: " ++ exc_text e);
               Styled WARNING
                 "Continuing; the bot may have limited knowledge this run."]) in
    handle options w = _chat_loop chatbot w' /\
    exists d : list event,
      trace (snd (handle options w))
      = trace w' ++ Styled SUCCESS ready :: Stdout "You: " :: d
  else
    handle options w = (Raised e, World s3 (stdin w) t).
Proof.
  intros args Hc Hm Ht t.
  assert (Hh : handle options w =
               if issubclass (exc_class e) Exception then
                 _chat_loop chatbot
                   (World s3 (stdin w)
                      (t ++ [Styled WARNING ("Training warning: " ++ exc_text e);
                             Styled WARNING
                               "Continuing; the bot may have limited knowledge this run."]))
               else (Raised e, World s3 (stdin w) t)).
  { rewrite handle_unfold. cbv zeta. fold args. rewrite Hc.
    unfold _train_if_needed, bind at 1 2 3, try_except, stdout_write, emit,
      external. cbn [engine stdin trace].
    rewrite Hm. cbn [engine stdin trace]. rewrite Ht.
    unfold handles. cbn [existsb]. rewrite orb_false_r.
    destruct (issubclass (exc_class e) Exception).
    - unfold bind. cbn [engine stdin trace]. subst t.
      rewrite <- !app_assoc. reflexivity.
    - subst t. rewrite <- !app_assoc. reflexivity. }
  destruct (issubclass (exc_class e) Exception); [|exact Hh].
  split; [exact Hh|]. rewrite Hh.
  unfold _chat_loop, bind, stdout_write, emit. cbn [engine stdin trace].
  match goal with
  | |- context [while_true chatbot ?w0] =>
      destruct (while_true_prompts chatbot w0) as [d Hd]
  end.
  exists d. rewrite Hd. cbn [trace]. rewrite <- app_assoc. reflexivity.
Qed.

(** C8.  For either value of the read-only flag the arguments built for the
    [ChatBot] constructor are: the fixed local SQLite store, one [BestMatch]
    logic adapter with its fall-back response and a similarity threshold of
    0.80 (between 0 and 1), the whitespace-cleaning preprocessor, and the
    flag as the read-only toggle; building them cannot fail, and they are
    what [_build_chatbot] gives to the constructor. *)
Theorem configuration_value (flag : bool) :
  let args := chatbot_args_of flag in
  name args = "TerminalBot" /\
  storage_adapter args = "chatterbot.storage.SQLStorageAdapter" /\
  database_uri args = "sqlite:///chatterbot.sqlite3" /\
  (exists la : logic_adapter,
      logic_adapters args = [la] /\
      import_path la = "chatterbot.logic.BestMatch" /\
      default_response la = "I'm not sure I understand. Can you rephrase?" /\
      (maximum_similarity_threshold la == 0.80)%Q /\
      (0 <= maximum_similarity_threshold la <= 1)%Q) /\
  preprocessors args = ["chatterbot.preprocessors.clean_whitespace"] /\
  read_only args = flag /\
  forall w,
    _build_chatbot flag w =
    (fst (ChatBot K args (engine w)),
     World (snd (ChatBot K args (engine w))) (stdin w)
       (trace w ++ [Called (NewChatBot args)])).
Proof.
  intros args. repeat split; try reflexivity.
  - eexists. repeat split; try reflexivity; vm_compute; discriminate.
  - intros w. unfold _build_chatbot, bind, external, ret. cbv zeta. fold args.
    destruct (ChatBot K args (engine w)) as [[chatbot|e] s]; reflexivity.
Qed.

End Handle.

(** ** The theorems at concrete runs *)

Lemma dispatch_error_contained_witness :
  let K := failing_dispatch value_error in
  let w := start K 0 [Line " hello "; Line "quit"] in
  let w' :=
    World (K:=K) 1 [Line "quit"]
      [Stdout "You: "; Called (GetResponse "hello");
       Stdout ("Bot: Sorry, I ran into a problem: boom" ++ nl)] in
  chat_turn (K:=K) tt w = (Returned Continue, w') /\
  while_true (K:=K) tt w = while_true (K:=K) tt w'.
Proof.
  intros K w w'.
  refine (dispatch_error_contained (K:=K) tt w " hello " [Line "quit"]
            value_error 1 eq_refl _ _ eq_refl).
  - intros [H|H]%in_sentinels; vm_compute in H; discriminate.
  - vm_compute. discriminate.
Defined.

(** C1, as stated, fails: a [KeyboardInterrupt] raised by the dispatch call
    is not an instance of [Exception]; it leaves the loop, which stops with
    a line still unread. *)
Lemma dispatch_interrupt_escapes :
  let K := failing_dispatch interrupted in
  let w := start K 0 [Line "hello"; Line "quit"] in
  let w' :=
    World (K:=K) 1 [Line "quit"] [Stdout "You: "; Called (GetResponse "hello")] in
  get_response K tt "hello" (engine w) = (Raised interrupted, 1) /\
  chat_turn (K:=K) tt w = (Raised interrupted, w') /\
  while_true (K:=K) tt w = (Raised interrupted, w') /\
  ~ exists w'', chat_turn (K:=K) tt w = (Returned Continue, w'').
Proof.
  intros K w w'.
  assert (Ht : chat_turn (K:=K) tt w = (Raised interrupted, w'))
    by (vm_compute; reflexivity).
  split; [reflexivity|]. split; [exact Ht|]. split.
  - rewrite while_true_step, Ht. reflexivity.
  - intros [w'' H]. rewrite Ht in H. discriminate.
Qed.

Lemma sentinel_terminates_witness :
  let w := start echo_engine 0 [Line "EXIT"; Line "hello"] in
  let w' :=
    World (K:=echo_engine) 0 [Line "hello"]
      [Stdout "You: "; Stdout ("Bot: Goodbye!" ++ nl)] in
  chat_turn (K:=echo_engine) tt w = (Returned Break, w') /\
  while_true (K:=echo_engine) tt w = (Returned tt, w') /\
  dispatches (trace w') = dispatches (trace w).
Proof.
  intros w w'.
  refine (sentinel_terminates (K:=echo_engine) tt w "EXIT" [Line "hello"]
            eq_refl _).
  left. reflexivity.
Defined.

Lemma blank_line_ignored_witness :
  let w := start echo_engine 0 [Line "   "; Line "hello"] in
  let w' := World (K:=echo_engine) 0 [Line "hello"] [Stdout "You: "] in
  chat_turn (K:=echo_engine) tt w = (Returned Continue, w') /\
  while_true (K:=echo_engine) tt w = while_true (K:=echo_engine) tt w' /\
  dispatches (trace w') = dispatches (trace w).
Proof.
  intros w w'.
  exact (blank_line_ignored (K:=echo_engine) tt w "   " [Line "hello"]
           eq_refl eq_refl).
Defined.

Lemma signal_terminates_witness :
  let w := start echo_engine 0 [Interrupt; Line "hello"] in
  let w' :=
    World (K:=echo_engine) 0 [Line "hello"] [Stdout "You: "; Stdout nl] in
  chat_turn (K:=echo_engine) tt w = (Returned Break, w') /\
  while_true (K:=echo_engine) tt w = (Returned tt, w') /\
  String.length nl = 1.
Proof.
  intros w w'.
  refine (signal_terminates (K:=echo_engine) tt w _).
  right. right. reflexivity.
Defined.

Lemma input_is_stripped_witness :
  let w := start echo_engine 0 [Line "  Exit  "; Line "hello"] in
  let w' :=
    World (K:=echo_engine) 0 [Line "hello"]
      [Stdout "You: "; Stdout ("Bot: Goodbye!" ++ nl)] in
  let v := start echo_engine 0 [Line "  hello there "; Line "quit"] in
  (chat_turn (K:=echo_engine) tt w = (Returned Break, w') /\
   while_true (K:=echo_engine) tt w = (Returned tt, w')) /\
  chat_turn (K:=echo_engine) tt v
  = chat_turn (K:=echo_engine) tt
      (start echo_engine 0 [Line "hello there"; Line "quit"]) /\
  dispatches (trace (snd (chat_turn (K:=echo_engine) tt v))) = ["hello there"].
Proof.
  intros w w' v. split; [|split].
  - refine (proj1 (input_is_stripped (K:=echo_engine) tt) w "  " "Exit" "  "
              [Line "hello"] eq_refl eq_refl eq_refl _).
    left. reflexivity.
  - exact (proj1 (proj2 (input_is_stripped (K:=echo_engine) tt)) v
             "  hello there " "hello there" [Line "quit"] eq_refl eq_refl).
  - exact (proj1 (proj2 (proj2 (input_is_stripped (K:=echo_engine) tt))) v
             "  hello there " [Line "quit"] eq_refl).
Defined.

Lemma scenario_hello_blank_quit_witness :
  let w := start echo_engine 0 [Line "hello"; Line ""; Line "quit"] in
  let w' :=
    World (K:=echo_engine) 1 []
      [Styled SUCCESS ready;
       Stdout "You: "; Called (GetResponse "hello"); Stdout ("Bot: hello" ++ nl);
       Stdout "You: ";
       Stdout "You: "; Stdout ("Bot: Goodbye!" ++ nl)] in
  _chat_loop (K:=echo_engine) tt w = (Returned tt, w') /\
  dispatches (trace w') = dispatches (trace w) ++ ["hello"].
Proof.
  intros w w'.
  refine (scenario_hello_blank_quit (K:=echo_engine) tt w eq_refl _).
  intros e s H. vm_compute in H. discriminate.
Defined.

(** C6, as stated, fails when the dispatch call for "hello" raises a
    [KeyboardInterrupt]: the exception leaves [_chat_loop] and the lines ""
    and "quit" are never read. *)
Lemma scenario_interrupted_escapes :
  let K := failing_dispatch interrupted in
  let w := start K 0 [Line "hello"; Line ""; Line "quit"] in
  _chat_loop (K:=K) tt w =
  (Raised interrupted,
   World (K:=K) 1 [Line ""; Line "quit"]
     [Styled SUCCESS ready; Stdout "You: "; Called (GetResponse "hello")]).
Proof.
  intros K w. unfold _chat_loop, bind, stdout_write, emit.
  rewrite while_true_step. reflexivity.
Qed.

Lemma construction_failure_propagates_witness :
  let K := failing_construction interrupted in
  let w := start K 0 [Line "hello"; Line "quit"] in
  handle (K:=K) no_options w =
  (Raised interrupted,
   World (K:=K) 1 [Line "hello"; Line "quit"]
     [Called (NewChatBot (chatbot_args_of false))]).
Proof.
  intros K w.
  exact (construction_failure_propagates (K:=K) no_options w interrupted 1 eq_refl).
Defined.

Lemma training_failure_contained_witness :
  let K := failing_training value_error in
  let w := start K 0 [Line "quit"] in
  let w' :=
    World (K:=K) 3 [Line "quit"]
      [Called (NewChatBot (chatbot_args_of true)); Styled NOTICE preparing;
       Called NewTrainer; Called (Train corpus);
       Styled WARNING "Training warning: boom";
       Styled WARNING
         "Continuing; the bot may have limited knowledge this run."] in
  handle (K:=K) read_only_options w = _chat_loop (K:=K) tt w' /\
  exists d : list event,
    trace (snd (handle (K:=K) read_only_options w))
    = trace w' ++ Styled SUCCESS ready :: Stdout "You: " :: d.
Proof.
  intros K w w'.
  exact (training_failure_contained (K:=K) read_only_options w
           tt tt value_error 1 2 3 eq_refl eq_refl eq_refl).
Defined.

(** C3, as stated, fails: a [KeyboardInterrupt] raised by [trainer.train]
    is not an instance of [Exception]; it leaves [handle], no warning is
    written and the loop is not entered. *)
Lemma training_interrupt_escapes :
  let K := failing_training interrupted in
  let w := start K 0 [Line "hello"; Line "quit"] in
  handle (K:=K) no_options w =
  (Raised interrupted,
   World (K:=K) 3 [Line "hello"; Line "quit"]
     [Called (NewChatBot (chatbot_args_of false)); Styled NOTICE preparing;
      Called NewTrainer; Called (Train corpus)]).
Proof. intros K w. rewrite handle_unfold. reflexivity. Qed.


(** * Further properties of the command *)

(** ** The loop, unfolded on the head of the input script *)

Section Script.
Context {K : Engine}.
Implicit Types (chatbot : Bot K) (w : world K).

Lemma chat_turn_read_fails chatbot w (e : exn) (rest : list input_event) :
  stdin w = ReadFails e :: rest ->
  chat_turn chatbot w =
  if handles [EOFError; KeyboardInterrupt] e then
    (Returned Break,
     World (engine w) rest (trace w ++ [Stdout "You: "; Stdout nl]))
  else (Raised e, World (engine w) rest (trace w ++ [Stdout "You: "])).
Proof.
  intros Hin. run_turn. rewrite Hin.
  destruct (handles [EOFError; KeyboardInterrupt] e);
    cbn [engine stdin trace]; rewrite <- ?app_assoc; reflexivity.
Qed.

Lemma while_true_on_script chatbot w :
  while_true chatbot w =
  match stdin w with
  | Line l :: rest =>
      if bool_decide (lower (strip l) ∈ sentinels) then
        (Returned tt,
         World (engine w) rest
           (trace w ++ [Stdout "You: "; Stdout ("Bot: Goodbye!" ++ nl)]))
      else if truthy (strip l) then
        let t := trace w ++ [Stdout "You: "; Called (GetResponse (strip l))] in
        match get_response K chatbot (strip l) (engine w) with
        | (Returned response, s) =>
            while_true chatbot
              (World s rest (t ++ [Stdout (("Bot: " ++ response) ++ nl)]))
        | (Raised e, s) =>
            if issubclass (exc_class e) Exception then
              while_true chatbot
                (World s rest
                   (t ++ [Stdout (("Bot: Sorry, I ran into a problem: "
                                   ++ exc_text e) ++ nl)]))
            else (Raised e, World s rest t)
        end
      else while_true chatbot (World (engine w) rest (trace w ++ [Stdout "You: "]))
  | ReadFails e :: rest =>
      if handles [EOFError; KeyboardInterrupt] e then
        (Returned tt,
         World (engine w) rest (trace w ++ [Stdout "You: "; Stdout nl]))
      else (Raised e, World (engine w) rest (trace w ++ [Stdout "You: "]))
  | script =>
      (Returned tt,
       World (engine w) (tail script) (trace w ++ [Stdout "You: "; Stdout nl]))
  end.
Proof.
  rewrite while_true_step.
  destruct (stdin w) as [|[l| | |e] rest] eqn:Hin.
  - rewrite chat_turn_signal by (rewrite Hin; auto). rewrite Hin. reflexivity.
  - destruct (bool_decide (lower (strip l) ∈ sentinels)) eqn:Hs.
    { apply bool_decide_eq_true_1 in Hs.
      rewrite (chat_turn_sentinel _ _ _ _ Hin Hs). reflexivity. }
    apply bool_decide_eq_false_1 in Hs.
    destruct (truthy (strip l)) eqn:Ht.
    + assert (He : strip l <> "")
        by (intros He; apply strip_empty_not_truthy in He; congruence).
      rewrite (chat_turn_dispatch _ _ _ _ Hin Hs He). cbv zeta.
      destruct (get_response K chatbot (strip l) (engine w)) as [[r|e] s];
        [|destruct (issubclass (exc_class e) Exception)]; reflexivity.
    + apply strip_empty_not_truthy in Ht.
      rewrite (chat_turn_blank _ _ _ _ Hin Ht). reflexivity.
  - rewrite chat_turn_signal by (rewrite Hin; auto). rewrite Hin. reflexivity.
  - rewrite chat_turn_signal by (rewrite Hin; auto). rewrite Hin. reflexivity.
  - rewrite (chat_turn_read_fails _ _ _ _ Hin).
    destruct (handles _ e); reflexivity.
Qed.

End Script.

(** ** Single passes: the answer, and a failing read *)

Section Passes.
Context {K : Engine}.
Implicit Types (chatbot : Bot K) (w : world K).

(** X1.  A line that is neither blank nor a sentinel, for which
    [get_response] returns [response], is answered: the stripped line is
    dispatched once, "Bot: " and the response are printed, the engine is in
    the state the call left, and the loop goes on with the rest of the
    input. *)
Theorem dispatch_answered chatbot w (l response : string)
    (rest : list input_event) (s : engine_state K) :
  stdin w = Line l :: rest ->
  lower (strip l) ∉ sentinels ->
  strip l <> "" ->
  get_response K chatbot (strip l) (engine w) = (Returned response, s) ->
  let w' :=
    World s rest
      (trace w ++ [Stdout "You: "; Called (GetResponse (strip l));
                   Stdout (("Bot: " ++ response) ++ nl)]) in
  chat_turn chatbot w = (Returned Continue, w') /\
  while_true chatbot w = while_true chatbot w'.
Proof.
  intros Hin Hs He Hr w'.
  pose proof (chat_turn_dispatch chatbot w l rest Hin Hs He) as Ht.
  rewrite Hr in Ht. cbv zeta in Ht. rewrite <- app_assoc in Ht.
  split; [exact Ht|]. rewrite (while_true_step chatbot w), Ht. reflexivity.
Qed.

(** X2.  An exception raised by [input] that is neither an [EOFError] nor a
    [KeyboardInterrupt] is not handled by the loop: after the prompt nothing
    more is written, no call is made to the engine, and the exception leaves
    the loop. *)
Theorem read_failure_propagates chatbot w (e : exn) (rest : list input_event) :
  stdin w = ReadFails e :: rest ->
  exc_class e <> EOFError ->
  exc_class e <> KeyboardInterrupt ->
  let w' := World (engine w) rest (trace w ++ [Stdout "You: "]) in
  chat_turn chatbot w = (Raised e, w') /\
  while_true chatbot w = (Raised e, w').
Proof.
  intros Hin H1 H2 w'.
  assert (Hh : handles [EOFError; KeyboardInterrupt] e = false).
  { unfold handles. cbn [existsb issubclass].
    rewrite !bool_decide_eq_false_2 by assumption. reflexivity. }
  pose proof (chat_turn_read_fails chatbot w e rest Hin) as Ht.
  rewrite Hh in Ht. split; [exact Ht|].
  rewrite while_true_step, Ht. reflexivity.
Qed.

End Passes.

(** ** Whole runs of the loop *)

Section Runs.
Context {K : Engine}.
Implicit Types (chatbot : Bot K) (w : world K).

(** X3.  When the dispatch call raises nothing but instances of [Exception],
    a whole run of the loop gives [get_response] exactly the stripped,
    non-blank lines that come before the first sentinel, end of input,
    interrupt or failing read, each once and in order, and leaves unread
    exactly the input after that event. *)
Theorem loop_dispatches_exactly chatbot w :
  dispatch_contained chatbot ->
  dispatches (trace (snd (while_true chatbot w)))
  = dispatches (trace w) ++ expected_dispatches (stdin w) /\
  stdin (snd (while_true chatbot w)) = unread (stdin w).
Proof.
  intros Hsafe. remember (stdin w) as script eqn:Hin. symmetry in Hin.
  revert w Hin. induction script as [|ev rest IH]; intros w Hin;
    rewrite while_true_on_script, Hin.
  - cbn [snd trace stdin tail]. rewrite dispatches_app. cbn.
    rewrite app_nil_r. auto.
  - destruct ev as [l| | |e]; cbn [expected_dispatches unread].
    + destruct (bool_decide (lower (strip l) ∈ sentinels)).
      { cbn [snd trace stdin]. rewrite dispatches_app. cbn.
        rewrite app_nil_r. auto. }
      destruct (truthy (strip l)).
      * cbv zeta.
        destruct (get_response K chatbot (strip l) (engine w)) as [[r|e] s] eqn:Hg;
          [|rewrite (Hsafe _ _ _ _ Hg)].
        all: match goal with
             | |- context [while_true _ ?w0] =>
                 destruct (IH w0 eq_refl) as [Hd Hu]
             end;
          rewrite Hd, Hu; cbn [trace]; rewrite !dispatches_app; cbn;
          rewrite ?app_nil_r, <- ?app_assoc; auto.
      * destruct (IH (World (engine w) rest (trace w ++ [Stdout "You: "]))
                    eq_refl) as [Hd Hu].
        rewrite Hd, Hu. cbn [trace]. rewrite dispatches_app. cbn.
        rewrite app_nil_r. auto.
    + cbn [snd trace stdin tail]. rewrite dispatches_app. cbn.
      rewrite app_nil_r. auto.
    + cbn [snd trace stdin tail]. rewrite dispatches_app. cbn.
      rewrite app_nil_r. auto.
    + destruct (handles _ e); cbn [snd trace stdin];
        rewrite dispatches_app; cbn; rewrite app_nil_r; auto.
Qed.

(** X4.  An exception that leaves the loop is not an instance of
    [Exception], or it was raised by [input] and is neither an [EOFError]
    nor a [KeyboardInterrupt]: no instance of [Exception] raised by the
    dispatch call ever leaves the loop. *)
Theorem loop_escapes_only_uncaught chatbot w (e : exn) (w' : world K) :
  while_true chatbot w = (Raised e, w') ->
  issubclass (exc_class e) Exception = false \/
  (ReadFails e ∈ stdin w /\ handles [EOFError; KeyboardInterrupt] e = false).
Proof.
  remember (stdin w) as script eqn:Hin. symmetry in Hin.
  revert w Hin. induction script as [|ev rest IH]; intros w Hin;
    rewrite while_true_on_script, Hin.
  - discriminate.
  - assert (Hrest : forall w0, stdin w0 = rest ->
              while_true chatbot w0 = (Raised e, w') ->
              issubclass (exc_class e) Exception = false \/
              (ReadFails e ∈ ev :: rest /\
               handles [EOFError; KeyboardInterrupt] e = false)).
    { intros w0 H0 Hw. destruct (IH w0 H0 Hw) as [?|[? ?]]; [auto|].
      right. split; [apply list_elem_of_further|]; assumption. }
    destruct ev as [l| | |e0]; try discriminate.
    + destruct (bool_decide (lower (strip l) ∈ sentinels)); [discriminate|].
      destruct (truthy (strip l)); [|apply Hrest; reflexivity].
      cbv zeta.
      destruct (get_response K chatbot (strip l) (engine w)) as [[r|e1] s];
        [apply Hrest; reflexivity|].
      destruct (issubclass (exc_class e1) Exception) eqn:Hc;
        [apply Hrest; reflexivity|].
      intros [= <- <-]. auto.
    + destruct (handles _ e0) eqn:Hh; [discriminate|].
      intros [= <- <-]. right. split; [apply list_elem_of_here|exact Hh].
Qed.

Lemma while_true_contained chatbot w :
  dispatch_contained chatbot ->
  (forall e, ReadFails e ∈ stdin w ->
             handles [EOFError; KeyboardInterrupt] e = true) ->
  fst (while_true chatbot w) = Returned tt.
Proof.
  intros Hsafe Hread.
  remember (stdin w) as script eqn:Hin. symmetry in Hin.
  revert w Hin. induction script as [|ev rest IH]; intros w Hin;
    rewrite while_true_on_script, Hin; [reflexivity|].
  assert (Hrest : forall w0, stdin w0 = rest ->
            fst (while_true chatbot w0) = Returned tt).
  { intros w0 H0. apply IH; [|exact H0].
    intros e He. apply Hread, list_elem_of_further, He. }
  destruct ev as [l| | |e0]; try reflexivity.
  - destruct (bool_decide (lower (strip l) ∈ sentinels)); [reflexivity|].
    destruct (truthy (strip l)); [|apply Hrest; reflexivity].
    cbv zeta.
    destruct (get_response K chatbot (strip l) (engine w)) as [[r|e1] s] eqn:Hg;
      [apply Hrest; reflexivity|].
    rewrite (Hsafe _ _ _ _ Hg). apply Hrest; reflexivity.
  - rewrite (Hread e0 (list_elem_of_here _ _)). reflexivity.
Qed.

(** X5.  When the dispatch call raises nothing but instances of [Exception]
    and every failure of [input] in the script is an [EOFError] or a
    [KeyboardInterrupt], [_chat_loop] returns normally, whatever the lines
    are and whatever the engine answers. *)
Theorem loop_returns_normally chatbot w :
  dispatch_contained chatbot ->
  (forall e, ReadFails e ∈ stdin w ->
             handles [EOFError; KeyboardInterrupt] e = true) ->
  fst (_chat_loop chatbot w) = Returned tt.
Proof.
  intros Hsafe Hread. unfold _chat_loop, bind, stdout_write, emit.
  pose proof (while_true_contained chatbot
                (World (engine w) (stdin w) (trace w ++ [Styled SUCCESS ready]))
                Hsafe Hread) as Hw.
  destruct (while_true chatbot _) as [r w']. cbn [fst] in *.
  rewrite Hw. reflexivity.
Qed.

(** X6.  Whenever the loop returns normally, the last thing it wrote is the
    farewell line (after a sentinel) or a lone newline (after the end of the
    input or an interrupt), right after a prompt. *)
Theorem loop_normal_exit_output chatbot w (w' : world K) :
  while_true chatbot w = (Returned tt, w') ->
  exists t : list event,
    trace w' = t ++ [Stdout "You: "; Stdout ("Bot: Goodbye!" ++ nl)] \/
    trace w' = t ++ [Stdout "You: "; Stdout nl].
Proof.
  remember (stdin w) as script eqn:Hin. symmetry in Hin.
  revert w Hin. induction script as [|ev rest IH]; intros w Hin;
    rewrite while_true_on_script, Hin.
  - intros [= <-]. eexists. right. reflexivity.
  - destruct ev as [l| | |e0].
    + destruct (bool_decide (lower (strip l) ∈ sentinels)).
      { intros [= <-]. eexists. left. reflexivity. }
      destruct (truthy (strip l)); [|apply IH; reflexivity].
      cbv zeta.
      destruct (get_response K chatbot (strip l) (engine w)) as [[r|e1] s];
        [apply IH; reflexivity|].
      destruct (issubclass (exc_class e1) Exception);
        [apply IH; reflexivity|discriminate].
    + intros [= <-]. eexists. right. reflexivity.
    + intros [= <-]. eexists. right. reflexivity.
    + destruct (handles _ e0); [|discriminate].
      intros [= <-]. eexists. right. reflexivity.
Qed.

End Runs.

(** ** Whole runs of the command *)

Section Lifecycle.
Context {K : Engine}.
Implicit Types (w : world K) (options : gmap string bool).

Lemma train_if_needed_unfold (chatbot : Bot K) w (trainer : Trainer K)
    (s1 : engine_state K) :
  ChatterBotCorpusTrainer K chatbot (engine w) = (Returned trainer, s1) ->
  _train_if_needed chatbot w =
  let t := trace w ++ [Styled NOTICE preparing; Called NewTrainer;
                       Called (Train corpus)] in
  match train K trainer corpus s1 with
  | (Returned _, s2) => (Returned tt, World s2 (stdin w) t)
  | (Raised e, s2) =>
      if issubclass (exc_class e) Exception then
        (Returned tt,
         World s2 (stdin w)
           (t ++ [Styled WARNING ("Training warning: " ++ exc_text e);
                  Styled WARNING
                    "Continuing; the bot may have limited knowledge this run."]))
      else (Raised e, World s2 (stdin w) t)
  end.
Proof.
  intros Hm.
  unfold _train_if_needed, bind at 1 2, try_except, stdout_write, emit, external.
  cbn [engine stdin trace]. rewrite Hm. cbn [engine stdin trace].
  destruct (train K trainer corpus s1) as [[[]|e] s2].
  - rewrite <- !app_assoc. reflexivity.
  - unfold handles. cbn [existsb]. rewrite orb_false_r.
    destruct (issubclass (exc_class e) Exception).
    + unfold bind. cbn [engine stdin trace]. rewrite <- !app_assoc. reflexivity.
    + rewrite <- !app_assoc. reflexivity.
Qed.

(** X8.  When the agent and the trainer are constructed and [trainer.train]
    returns, no warning is written: after the notice, [handle] goes into
    [_chat_loop] with the agent the constructor returned, the engine in the
    state training left, and the input untouched. *)
Theorem training_success_enters_loop options w (chatbot : Bot K)
    (trainer : Trainer K) (s1 s2 s3 : engine_state K) :
  let args := chatbot_args_of (default false (options !! "read_only")) in
  ChatBot K args (engine w) = (Returned chatbot, s1) ->
  ChatterBotCorpusTrainer K chatbot s1 = (Returned trainer, s2) ->
  train K trainer corpus s2 = (Returned tt, s3) ->
  handle options w =
  _chat_loop chatbot
    (World s3 (stdin w)
       (trace w ++ [Called (NewChatBot args); Styled NOTICE preparing;
                    Called NewTrainer; Called (Train corpus)])).
Proof.
  intros args Hc Hm Ht. rewrite handle_unfold. cbv zeta. fold args. rewrite Hc.
  unfold bind at 1.
  rewrite (train_if_needed_unfold chatbot _ trainer s2) by exact Hm.
  cbv zeta. rewrite Ht. cbn [engine stdin trace].
  rewrite <- !app_assoc. reflexivity.
Qed.

(** X9.  [handle] returns normally when the agent and the trainer are
    constructed, [trainer.train] and the dispatch call raise nothing but
    instances of [Exception], and every failure of [input] in the script is
    an [EOFError] or a [KeyboardInterrupt]. *)
Theorem handle_returns_normally options w (chatbot : Bot K)
    (trainer : Trainer K) (s1 s2 : engine_state K) :
  let args := chatbot_args_of (default false (options !! "read_only")) in
  ChatBot K args (engine w) = (Returned chatbot, s1) ->
  ChatterBotCorpusTrainer K chatbot s1 = (Returned trainer, s2) ->
  (forall e s3, train K trainer corpus s2 = (Raised e, s3) ->
                issubclass (exc_class e) Exception = true) ->
  dispatch_contained chatbot ->
  (forall e, ReadFails e ∈ stdin w ->
             handles [EOFError; KeyboardInterrupt] e = true) ->
  fst (handle options w) = Returned tt.
Proof.
  intros args Hc Hm Ht Hsafe Hread.
  rewrite handle_unfold. cbv zeta. fold args. rewrite Hc.
  unfold bind at 1.
  rewrite (train_if_needed_unfold chatbot _ trainer s2) by exact Hm.
  cbv zeta. cbn [engine stdin trace].
  assert (Hloop : forall s t,
            fst (_chat_loop chatbot (World s (stdin w) t)) = Returned tt).
  { intros s t. unfold _chat_loop, bind, stdout_write, emit.
    cbn [engine stdin trace].
    apply while_true_contained; [exact Hsafe|exact Hread]. }
  destruct (train K trainer corpus s2) as [[[]|e] s3] eqn:Htr.
  - apply Hloop.
  - rewrite (Ht e s3 eq_refl). apply Hloop.
Qed.

Lemma while_true_calls (chatbot : Bot K) w :
  exists d : list event,
    trace (snd (while_true chatbot w)) = trace w ++ d /\
    calls d = GetResponse <$> dispatches d.
Proof.
  remember (stdin w) as script eqn:Hin. symmetry in Hin.
  revert w Hin. induction script as [|ev rest IH]; intros w Hin;
    rewrite while_true_on_script, Hin.
  - eexists. split; reflexivity.
  - assert (Hrest : forall (s : engine_state K) (d0 : list event),
              calls d0 = GetResponse <$> dispatches d0 ->
              exists d,
                trace (snd (while_true chatbot (World s rest (trace w ++ d0))))
                = trace w ++ d /\
                calls d = GetResponse <$> dispatches d).
    { intros s d0 H0.
      destruct (IH (World s rest (trace w ++ d0)) eq_refl) as (d & Hd & Hc).
      exists (d0 ++ d). cbn [trace] in Hd. rewrite Hd, <- app_assoc.
      split; [reflexivity|].
      unfold calls, dispatches in *. rewrite !omap_app, fmap_app.
      congruence. }
    destruct ev as [l| | |e0].
    + destruct (bool_decide (lower (strip l) ∈ sentinels)).
      { eexists. split; reflexivity. }
      destruct (truthy (strip l)); [|apply Hrest; reflexivity].
      cbv zeta.
      destruct (get_response K chatbot (strip l) (engine w)) as [[r|e1] s];
        [|destruct (issubclass (exc_class e1) Exception)];
        rewrite <- ?app_assoc.
      * apply Hrest. reflexivity.
      * apply Hrest. reflexivity.
      * eexists. split; reflexivity.
    + eexists. split; reflexivity.
    + eexists. split; reflexivity.
    + destruct (handles _ e0); eexists; split; reflexivity.
Qed.

(** X10.  When the agent and the trainer are constructed, the calls that a
    run of [handle] makes to the engine are, in this order: the constructor
    with the arguments of the flag, the trainer's constructor, one training
    call on the English corpus, and then only dispatch calls. *)
Theorem handle_calls options w (chatbot : Bot K) (trainer : Trainer K)
    (s1 s2 : engine_state K) :
  let args := chatbot_args_of (default false (options !! "read_only")) in
  ChatBot K args (engine w) = (Returned chatbot, s1) ->
  ChatterBotCorpusTrainer K chatbot s1 = (Returned trainer, s2) ->
  exists d : list event,
    trace (snd (handle options w)) = trace w ++ d /\
    calls d
    = [NewChatBot args; NewTrainer; Train corpus]
      ++ (GetResponse <$> dispatches d).
Proof.
  intros args Hc Hm.
  rewrite handle_unfold. cbv zeta. fold args. rewrite Hc.
  unfold bind at 1.
  rewrite (train_if_needed_unfold chatbot _ trainer s2) by exact Hm.
  cbv zeta. cbn [engine stdin trace].
  assert (Hloop : forall s d0,
            calls d0 = [NewChatBot args; NewTrainer; Train corpus]
                       ++ (GetResponse <$> dispatches d0) ->
            exists d,
              trace (snd (_chat_loop chatbot (World s (stdin w) (trace w ++ d0))))
              = trace w ++ d /\
              calls d = [NewChatBot args; NewTrainer; Train corpus]
                        ++ (GetResponse <$> dispatches d)).
  { intros s d0 H0. unfold _chat_loop, bind, stdout_write, emit.
    cbn [engine stdin trace].
    match goal with
    | |- context [while_true chatbot ?w0] =>
        destruct (while_true_calls chatbot w0) as (d & Hd & Hcl)
    end.
    cbn [trace] in Hd.
    exists (d0 ++ [Styled SUCCESS ready] ++ d).
    rewrite Hd, <- !app_assoc. split; [reflexivity|].
    unfold calls, dispatches in *. rewrite !omap_app, !fmap_app.
    cbn [omap]. rewrite H0, Hcl. cbn. reflexivity. }
  destruct (train K trainer corpus s2) as [[[]|e] s3].
  - rewrite <- app_assoc. apply Hloop. reflexivity.
  - destruct (issubclass (exc_class e) Exception).
    + rewrite <- !app_assoc. apply Hloop. reflexivity.
    + rewrite <- app_assoc. eexists. split; reflexivity.
Qed.

End Lifecycle.

(** ** The further properties at concrete runs *)

Lemma dispatch_answered_witness :
  let w := start echo_engine 0 [Line "  hello "; Line "quit"] in
  let w' :=
    World (K:=echo_engine) 1 [Line "quit"]
      [Stdout "You: "; Called (GetResponse "hello");
       Stdout ("Bot: hello" ++ nl)] in
  chat_turn (K:=echo_engine) tt w = (Returned Continue, w') /\
  while_true (K:=echo_engine) tt w = while_true (K:=echo_engine) tt w'.
Proof.
  intros w w'.
  refine (dispatch_answered (K:=echo_engine) tt w "  hello " "hello"
            [Line "quit"] 1 eq_refl _ _ eq_refl).
  - intros [H|H]%in_sentinels; vm_compute in H; discriminate.
  - vm_compute. discriminate.
Defined.

Lemma read_failure_propagates_witness :
  let w := start echo_engine 0 [ReadFails decode_error; Line "quit"] in
  let w' := World (K:=echo_engine) 0 [Line "quit"] [Stdout "You: "] in
  chat_turn (K:=echo_engine) tt w = (Raised decode_error, w') /\
  while_true (K:=echo_engine) tt w = (Raised decode_error, w').
Proof.
  intros w w'.
  refine (read_failure_propagates (K:=echo_engine) tt w decode_error
            [Line "quit"] eq_refl _ _); vm_compute; discriminate.
Defined.

Lemma loop_dispatches_exactly_witness :
  let w :=
    start echo_engine 0
      [Line " a "; Line ""; Line "b"; Line "QUIT"; Line "c"] in
  dispatches (trace (snd (while_true (K:=echo_engine) tt w))) = ["a"; "b"] /\
  stdin (snd (while_true (K:=echo_engine) tt w)) = [Line "c"].
Proof.
  intros w.
  refine (loop_dispatches_exactly (K:=echo_engine) tt w _).
  intros text s s' e H. vm_compute in H. discriminate.
Defined.

Lemma loop_escapes_only_uncaught_witness :
  let K := failing_dispatch interrupted in
  let w := start K 0 [Line "hello"; Line "quit"] in
  issubclass (exc_class interrupted) Exception = false \/
  (ReadFails interrupted ∈ stdin w /\
   handles [EOFError; KeyboardInterrupt] interrupted = false).
Proof.
  intros K w.
  refine (loop_escapes_only_uncaught (K:=K) tt w interrupted
            (World (K:=K) 1 [Line "quit"]
               [Stdout "You: "; Called (GetResponse "hello")]) _).
  rewrite while_true_step. reflexivity.
Defined.

Lemma loop_returns_normally_witness :
  let w :=
    start degraded_engine 0
      [Line "hello"; ReadFails (Exn EOFError "closed"); Line "again"] in
  fst (_chat_loop (K:=degraded_engine) tt w) = Returned tt.
Proof.
  intros w.
  refine (loop_returns_normally (K:=degraded_engine) tt w _ _).
  - intros text s s' e H. vm_compute in H.
    injection H as <- _. reflexivity.
  - intros e He.
    apply elem_of_cons in He as [He|He]; [discriminate|].
    apply elem_of_cons in He as [He|He]; [injection He as ->; reflexivity|].
    apply elem_of_cons in He as [He|He]; [discriminate|].
    apply elem_of_nil in He. destruct He.
Defined.

Lemma loop_normal_exit_output_witness :
  exists t : list event,
    [Stdout "You: "; Called (GetResponse "hi"); Stdout ("Bot: hi" ++ nl);
     Stdout "You: "; Stdout ("Bot: Goodbye!" ++ nl)]
    = t ++ [Stdout "You: "; Stdout ("Bot: Goodbye!" ++ nl)] \/
    [Stdout "You: "; Called (GetResponse "hi"); Stdout ("Bot: hi" ++ nl);
     Stdout "You: "; Stdout ("Bot: Goodbye!" ++ nl)]
    = t ++ [Stdout "You: "; Stdout nl].
Proof.
  refine (loop_normal_exit_output (K:=echo_engine) tt
            (start echo_engine 0 [Line "hi"; Line "exit"; Line "late"])
            (World (K:=echo_engine) 1 [Line "late"]
               [Stdout "You: "; Called (GetResponse "hi");
                Stdout ("Bot: hi" ++ nl);
                Stdout "You: "; Stdout ("Bot: Goodbye!" ++ nl)]) _).
  rewrite while_true_step.
  erewrite chat_turn_dispatch; cycle 1.
  { reflexivity. }
  { intros [H|H]%in_sentinels; vm_compute in H; discriminate. }
  { vm_compute. discriminate. }
  cbv zeta. cbn [get_response echo_engine fixed_engine engine start].
  rewrite while_true_step.
  erewrite chat_turn_sentinel; cycle 1.
  { reflexivity. }
  { apply in_sentinels. left. reflexivity. }
  reflexivity.
Defined.

Lemma trainer_construction_failure_propagates_witness :
  let K := failing_trainer value_error in
  let w := start K 0 [Line "hello"; Line "quit"] in
  handle (K:=K) no_options w =
  (Raised value_error,
   World (K:=K) 2 [Line "hello"; Line "quit"]
     [Called (NewChatBot (chatbot_args_of false)); Styled NOTICE preparing;
      Called NewTrainer]).
Proof.
  intros K w.
  exact (trainer_construction_failure_propagates (K:=K) no_options w tt
           value_error 1 2 eq_refl eq_refl).
Defined.

Lemma training_success_enters_loop_witness :
  let w := start echo_engine 0 [Line "hello"; Line "quit"] in
  handle (K:=echo_engine) no_options w =
  _chat_loop (K:=echo_engine) tt
    (World (K:=echo_engine) 3 [Line "hello"; Line "quit"]
       [Called (NewChatBot (chatbot_args_of false)); Styled NOTICE preparing;
        Called NewTrainer; Called (Train corpus)]).
Proof.
  intros w.
  exact (training_success_enters_loop (K:=echo_engine) no_options w tt tt
           1 2 3 eq_refl eq_refl eq_refl).
Defined.

Lemma handle_returns_normally_witness :
  let w :=
    start degraded_engine 0 [Line "hello"; Line "  "; Line "more"; Interrupt] in
  fst (handle (K:=degraded_engine) read_only_options w) = Returned tt.
Proof.
  intros w.
  refine (handle_returns_normally (K:=degraded_engine) read_only_options w
            tt tt 1 2 eq_refl eq_refl _ _ _).
  - intros e s3 H. vm_compute in H. injection H as <- _. reflexivity.
  - intros text s s' e H. vm_compute in H. injection H as <- _. reflexivity.
  - intros e He.
    apply elem_of_cons in He as [He|He]; [discriminate|].
    apply elem_of_cons in He as [He|He]; [discriminate|].
    apply elem_of_cons in He as [He|He]; [discriminate|].
    apply elem_of_cons in He as [He|He]; [discriminate|].
    apply elem_of_nil in He. destruct He.
Defined.

Lemma handle_calls_witness :
  let w := start echo_engine 0 [Line "hello"; Line ""; Line "quit"] in
  exists d : list event,
    trace (snd (handle (K:=echo_engine) no_options w)) = trace w ++ d /\
    calls d
    = [NewChatBot (chatbot_args_of false); NewTrainer; Train corpus]
      ++ (GetResponse <$> dispatches d).
Proof.
  intros w.
  exact (handle_calls (K:=echo_engine) no_options w tt tt 1 2
           eq_refl eq_refl).
Defined.

(** ** The read-only flag *)

Section Flag.
Context {K : Engine}.

(** Past the constructor, a run on [told_read_only b K] is a run on [K]. *)
Lemma told_while_true (b : bool) (chatbot : Bot K) (script : list input_event)
    (s : engine_state K) (t : list event) :
  observe (while_true (K:=told_read_only b K) chatbot
             (World (K:=told_read_only b K) s script t))
  = observe (while_true (K:=K) chatbot (World s script t)).
Proof.
  revert s t. induction script as [|ev rest IH]; intros s t;
    rewrite (while_true_on_script (K:=told_read_only b K)),
            (while_true_on_script (K:=K));
    cbn [stdin engine trace]; [reflexivity|].
  destruct ev as [l| | |e]; try reflexivity.
  - destruct (bool_decide (lower (strip l) ∈ sentinels)); [reflexivity|].
    destruct (truthy (strip l)); [|apply IH].
    cbv zeta. cbn [get_response told_read_only].
    destruct (get_response K chatbot (strip l) s) as [[r|e] s'];
      [apply IH|].
    destruct (issubclass (exc_class e) Exception); [apply IH|reflexivity].
  - destruct (handles _ e); reflexivity.
Qed.

Lemma told_after_construction (b : bool) (chatbot : Bot K)
    (script : list input_event) (s : engine_state K) (t : list event) :
  observe ((_train_if_needed (K:=told_read_only b K) chatbot ;;
            _chat_loop (K:=told_read_only b K) chatbot)
             (World (K:=told_read_only b K) s script t))
  = observe ((_train_if_needed (K:=K) chatbot ;; _chat_loop (K:=K) chatbot)
               (World s script t)).
Proof.
  unfold _train_if_needed, _chat_loop, bind, try_except, stdout_write, emit,
    external.
  cbn [stdin engine trace ChatterBotCorpusTrainer train told_read_only].
  destruct (ChatterBotCorpusTrainer K chatbot s) as [[trainer|e] s1];
    [|reflexivity].
  cbn [stdin engine trace].
  destruct (train K trainer corpus s1) as [[[]|e] s2]; cbn [stdin engine trace].
  - apply told_while_true.
  - destruct (handles [Exception] e); cbn [stdin engine trace];
      [apply told_while_true|reflexivity].
Qed.

(** C10.  The read-only flag of a run is the value the options hold under
    [read_only], false when the key is missing; [add_arguments] registers the
    one option [--read-only], a [store_true] kept under that key, so the flag
    is true when the option is given and false when it is not.  Two option
    sets give constructor arguments that agree on everything but
    [read_only], which is the flag.  The flag has no other effect: for every
    engine, the run with the first options ends as the run with the second
    options does on the same engine with its constructor told the first
    flag, with the same result, the same engine state, the same input left
    and traces that differ only in the recorded constructor arguments. *)
Theorem read_only_flag_frame (options1 options2 : gmap string bool)
    (w : world K) :
  let flag := fun o : gmap string bool => default false (o !! "read_only") in
  let args1 := chatbot_args_of (flag options1) in
  let args2 := chatbot_args_of (flag options2) in
  ((forall o : gmap string bool, o !! "read_only" = None -> flag o = false) /\
   forall parser : list argument, exists a : argument,
     add_arguments parser = parser ++ [a] /\
     option_string a = "--read-only" /\
     dest a = "read_only" /\
     forall (given : bool) (o : gmap string bool),
       flag (<[ dest a := stored (action a) given ]> o) = given) /\
  (name args1 = name args2 /\
   storage_adapter args1 = storage_adapter args2 /\
   database_uri args1 = database_uri args2 /\
   logic_adapters args1 = logic_adapters args2 /\
   preprocessors args1 = preprocessors args2 /\
   read_only args1 = flag options1 /\ read_only args2 = flag options2) /\
  exists (r : outcome unit) (s : engine_state K) (rest : list input_event)
         (d : list event),
    observe (handle (K:=K) options1 w)
    = (r, (s, (rest, trace w ++ Called (NewChatBot args1) :: d))) /\
    observe (handle (K:=told_read_only (flag options1) K) options2
               (World (K:=told_read_only (flag options1) K)
                  (engine w) (stdin w) (trace w)))
    = (r, (s, (rest, trace w ++ Called (NewChatBot args2) :: d))).
Proof.
  intros flag args1 args2. split; [|split].
  - split; [intros o Ho; unfold flag; rewrite Ho; reflexivity|].
    intros parser. eexists. split; [reflexivity|].
    split; [reflexivity|]. split; [reflexivity|].
    intros given o. unfold flag. cbn [action stored].
    change (dest _) with "read_only".
    rewrite lookup_insert_eq. reflexivity.
  - repeat split; reflexivity.
  - rewrite (handle_unfold (K:=K)), (handle_unfold (K:=told_read_only _ K)).
    cbv zeta. fold (flag options1) (flag options2). fold args1 args2.
    cbn [stdin engine trace ChatBot told_read_only].
    change {| name := name args2;
              storage_adapter := storage_adapter args2;
              database_uri := database_uri args2;
              logic_adapters := logic_adapters args2;
              preprocessors := preprocessors args2;
              read_only := flag options1 |} with args1.
    destruct (ChatBot K args1 (engine w)) as [[chatbot|e] s1].
    + pose proof (fun (K0 : Engine) (c : Bot K0) =>
                    framed_bind _ _ (framed_train_if_needed c)
                      (fun _ => framed_chat_loop c)) as Hframed.
      set (t2 := trace w ++ [Called (NewChatBot args2)]).
      set (t1 := trace w ++ [Called (NewChatBot args1)]).
      pose proof (framed_extends _ (World (K:=told_read_only (flag options1) K)
                                      s1 (stdin w) t2)
                    (Hframed (told_read_only (flag options1) K) chatbot)) as H2.
      pose proof (framed_extends _ (World (K:=K) s1 (stdin w) t1)
                    (Hframed K chatbot)) as H1.
      cbn [stdin engine trace] in H1, H2.
      pose proof (told_after_construction (flag options1) chatbot (stdin w)
                    s1 []) as Hobs.
      rewrite H1, H2. unfold observe in *.
      destruct ((_train_if_needed (K:=told_read_only (flag options1) K) chatbot ;;
                 _chat_loop (K:=told_read_only (flag options1) K) chatbot)
                  (World (K:=told_read_only (flag options1) K)
                     s1 (stdin w) [])) as [r' [s' rest' d']].
      destruct ((_train_if_needed (K:=K) chatbot ;; _chat_loop (K:=K) chatbot)
                  (World s1 (stdin w) [])) as [r [s rest d]].
      cbn in Hobs. injection Hobs as -> -> -> ->.
      exists r, s, rest, d. unfold retrace, t1, t2. cbn.
      rewrite <- !app_assoc. split; reflexivity.
    + exists (Raised e), s1, (stdin w), []. split; reflexivity.
Qed.

End Flag.

(** On an engine that honours the flag the two runs of [handle] do differ:
    with the flag the engine stores nothing, without it it stores the
    statement of the dispatch call. *)
Example flag_is_honoured :
  let w := start honouring_engine 0 [Line "hello"; Line "quit"] in
  engine (snd (handle (K:=honouring_engine) read_only_options w)) = 0 /\
  engine (snd (handle (K:=honouring_engine) no_options w)) = 1.
Proof. vm_compute. split; reflexivity. Qed.

Lemma read_only_flag_frame_witness :
  let w := start honouring_engine 0 [Line "hello"; Line "quit"] in
  exists (r : outcome unit) (s : nat) (rest : list input_event)
         (d : list event),
    observe (handle (K:=honouring_engine) read_only_options w)
    = (r, (s, (rest,
               trace w ++ Called (NewChatBot (chatbot_args_of true)) :: d))) /\
    observe (handle (K:=told_read_only true honouring_engine) no_options
               (World (K:=told_read_only true honouring_engine)
                  (engine w) (stdin w) (trace w)))
    = (r, (s, (rest,
               trace w ++ Called (NewChatBot (chatbot_args_of false)) :: d))).
Proof.
  intros w.
  exact (proj2 (proj2 (read_only_flag_frame (K:=honouring_engine)
                         read_only_options no_options w))).
Defined.
